(** * stumbler: the background sampling worker and its lifecycle controller

    A shallow embedding of [module/main.go].  The component owns a movement
    sensor, starts a goroutine that polls it for at most 10000 iterations
    while feeding six moving averages, and joins that goroutine in [Close].

    Conventions of the embedding:
    - Go [int] and [time.Duration] are [Z]; every counter here stays far
      from the 64-bit range, so no wrap-around is written out.
    - [float64] is IEEE binary64, the primitive [float] of [PrimFloat]:
      sensor readings, the sums and averages of the windows and the update
      frequency are computed with its rounding.
    - the goroutine is a step function on its local variables; the
      scheduler and the clock are inputs. *)

From Stdlib Require Import ZArith Floats Uint63 Lia.
From stdpp Require Import gmap strings list.

Abbreviation int := BinNums.Z (only parsing).

(** [float64(n)] for an [int]. *)
Definition float64_of_int (n : int) : float :=
  if (n <? 0)%Z then (- of_uint63 (Uint63.of_Z (- n)))%float
  else of_uint63 (Uint63.of_Z n).

(** ** The moving-average package *)

Module movingaverage.

(** Modelled from the spec: the package
    [github.com/RobinUS2/golang-moving-average] ([movingaverage.New],
    [Add], [Avg]) is imported by [main.go] and is not part of the sources.
    The record and the two operations follow section 4.3 of the
    specification: a buffer of at most [windowCapacity] recent values and
    their running sum. *)
Record MovingAverage : Type := {
  windowCapacity : nat;
  buffer : list float;
  runningSum : float
}.

(** Modelled from the spec: [movingaverage.New(window)], an empty window of
    the given capacity. *)
Definition New (window : nat) : MovingAverage :=
  {| windowCapacity := window; buffer := []; runningSum := 0%float |}.

(** Modelled from the spec: "if the buffer is at capacity, evict the oldest
    value and subtract it from the running sum before inserting the new
    one; in all cases append the new value and add it to the running
    sum". *)
Definition Add (value : float) (ma : MovingAverage) : MovingAverage :=
  let '(kept, sum) :=
    match buffer ma with
    | oldest :: rest =>
        if (length (buffer ma) =? windowCapacity ma)%nat
        then (rest, (runningSum ma - oldest)%float)
        else (buffer ma, runningSum ma)
    | [] => ([], runningSum ma)
    end in
  {| windowCapacity := windowCapacity ma;
     buffer := kept ++ [value];
     runningSum := (sum + value)%float |}.

(** Modelled from the spec: "Average() returns runningSum/len(buffer), or a
    defined sentinel (0) when empty". *)
Definition Avg (ma : MovingAverage) : float :=
  match buffer ma with
  | [] => 0%float
  | _ :: _ => (runningSum ma / float64_of_int (Z.of_nat (length (buffer ma))))%float
  end.

(** Feeding a sequence of values, oldest first. *)
Definition feed (values : list float) (ma : MovingAverage) : MovingAverage :=
  fold_left (fun acc v => Add v acc) values ma.

End movingaverage.

(** ** Reference notions for the averages *)

(** The [float64] sum of a list, taken from left to right. *)
Definition fsum (l : list float) : float :=
  fold_left (fun acc v => (acc + v)%float) l 0%float.

(** The last [n] elements of a list (the whole list when it is shorter). *)
Definition lastn {A : Type} (n : nat) (l : list A) : list A :=
  drop (length l - n) l.

(** ** External collaborators: errors, vectors, the sensor, the host *)

(** Go [error] values.  [errorString] covers [errors.New], [fmt.Errorf] and
    whatever a sensor driver reports; the other constructors are the
    errors built by the host's helper packages. *)
Inductive error : Type :=
| errorString (msg : string)
| ConfigValidationFieldRequiredError (path field : string)
| UnexpectedTypeError
| DependencyNotFoundError (name : string)
| DependencyTypeError (name : string).

Module r3.
(** [r3.Vector]; [spatialmath.AngularVelocity] has the same three fields. *)
Record Vector : Type := { X : float; Y : float; Z : float }.
End r3.

Module spatialmath.
Record EulerAngles : Type := { Roll : float; Pitch : float; Yaw : float }.
(** A [spatialmath.Orientation] interface value: [None] is the nil
    interface, [Some a] an orientation whose [EulerAngles()] is [a]. *)
Definition Orientation : Type := option EulerAngles.
End spatialmath.

Module movementsensor.
(** The three reads of [movementsensor.MovementSensor] that the worker
    uses.  A Go read returns a value together with an error; both are
    kept, since the worker uses the value whatever the error is.  The
    argument identifies the call: the number of loop passes the calling
    goroutine has completed. *)
Record MovementSensor : Type := {
  LinearAcceleration : int -> r3.Vector * option error;
  AngularVelocity : int -> r3.Vector * option error;
  Orientation : int -> spatialmath.Orientation * option error
}.
End movementsensor.
Import movementsensor.

(** ** Configuration *)

Record Config : Type := { IMU : string }.

(** [func (cfg *Config) Validate(path string) ([]string, error)] *)
Definition Validate (cfg : Config) (path : string) : option (list string) * option error :=
  if decide (IMU cfg = "") then
    (None, Some (ConfigValidationFieldRequiredError path "imu"))
  else
    (Some [IMU cfg], None).

Module resource.
(** [resource.Config], seen through the native configuration type [T] that
    the component asks for: the converted attributes are a [T], or
    something else ([None]). *)
Record Config (T : Type) : Type := { ConvertedAttributes : option T }.
Arguments ConvertedAttributes {T} _.

(** A dependency handed over by the host. *)
Inductive Resource : Type :=
| MovementSensorResource (m : MovementSensor)
| OtherResource.

(** [resource.NativeConfig[T](conf)]: the attributes as a [T], or an
    error. *)
Definition NativeConfig {T : Type} (conf : Config T) : T + error :=
  match ConvertedAttributes conf with
  | Some c => inl c
  | None => inr UnexpectedTypeError
  end.
End resource.

(** [movementsensor.FromDependencies(deps, name)]: the dependency of that
    name as a movement sensor, or an error. *)
Definition FromDependencies (deps : gmap string resource.Resource) (name : string)
  : MovementSensor + error :=
  match deps !! name with
  | None => inr (DependencyNotFoundError name)
  | Some (resource.MovementSensorResource m) => inl m
  | Some resource.OtherResource => inr (DependencyTypeError name)
  end.

(** ** The component and its goroutines *)

(** [type stumbler struct].  [cancelFunc] is [None] for a nil func, else
    the context it cancels; [wg] is the counter of the [sync.WaitGroup].
    The embedded name and the logger are not state of the model (the log
    is a field of [System]); the mutex [mu] shows as the atomicity of the
    operations that hold it. *)
Record stumbler : Type := {
  imu : option MovementSensor;
  cancelFunc : option nat;
  wg : int
}.

Inductive LogEntry : Type :=
| Info (msg : string)
| Error (err : error)
| Infow_RunFinished (Runtime Iterations : int) (Frequency : float)
| Infow_Averages (X Y Z RX RY RZ : float)
| Infow_Orientation (pitch roll yaw : float).

Inductive Status : Type :=
| Running
| Returned
| Panicked.

Module bg.
(** The local variables of the goroutine started by [startBackground]:
    the captured [ctx], the parameter [imu], [iterations] and the six
    averages; [status] tells whether the function is still executing. *)
Record locals : Type := {
  ctx : nat;
  imu : option MovementSensor;
  iterations : int;
  X : movingaverage.MovingAverage;
  Y : movingaverage.MovingAverage;
  Z : movingaverage.MovingAverage;
  RX : movingaverage.MovingAverage;
  RY : movingaverage.MovingAverage;
  RZ : movingaverage.MovingAverage;
  status : Status
}.

Definition set_status (st : Status) (l : locals) : locals :=
  {| ctx := ctx l; imu := imu l; iterations := iterations l;
     X := X l; Y := Y l; Z := Z l; RX := RX l; RY := RY l; RZ := RZ l;
     status := st |}.

(** The state in which the goroutine begins: lines 152-161. *)
Definition start (c : nat) (sensor : option MovementSensor) : locals :=
  {| ctx := c; imu := sensor; iterations := 0%Z;
     X := movingaverage.New 50; Y := movingaverage.New 50;
     Z := movingaverage.New 50;
     RX := movingaverage.New 50; RY := movingaverage.New 50;
     RZ := movingaverage.New 50;
     status := Running |}.
End bg.

(** One component instance with everything it shares with its goroutines:
    the contexts made by [context.WithCancel] (true once cancelled), the
    goroutines started so far, and what was written to the logger. *)
Record System : Type := {
  s : stumbler;
  contexts : list bool;
  goroutines : list bg.locals;
  logger : list LogEntry
}.

(** [s.logger.Error(err)] under [if err != nil]. *)
Definition log_if_err (err : option error) : list LogEntry :=
  match err with
  | Some e => [Error e]
  | None => []
  end.

(** The loop body, lines 171-188. *)
Definition loop_body (sensor : MovementSensor) (l : bg.locals) : bg.locals * list LogEntry :=
  let '(accel, err) := LinearAcceleration sensor (bg.iterations l) in
  let log1 := log_if_err err in
  let X := movingaverage.Add (r3.X accel) (bg.X l) in
  let Y := movingaverage.Add (r3.Y accel) (bg.Y l) in
  let Z := movingaverage.Add (r3.Z accel) (bg.Z l) in
  let '(gyro, err) := AngularVelocity sensor (bg.iterations l) in
  let log2 := log_if_err err in
  let RX := movingaverage.Add (r3.X gyro) (bg.RX l) in
  let RY := movingaverage.Add (r3.Y gyro) (bg.RY l) in
  let RZ := movingaverage.Add (r3.Z gyro) (bg.RZ l) in
  ({| bg.ctx := bg.ctx l; bg.imu := bg.imu l;
      bg.iterations := (bg.iterations l + 1)%Z;
      bg.X := X; bg.Y := Y; bg.Z := Z; bg.RX := RX; bg.RY := RY; bg.RZ := RZ;
      bg.status := Running |},
   log1 ++ log2).

(** [func (d Duration) Seconds() float64] of package [time]; Go's [/] and
    [%] on integers truncate towards zero. *)
Definition Seconds (d : int) : float :=
  let sec := (d ÷ 1000000000)%Z in
  let nsec := Z.rem d 1000000000 in
  (float64_of_int sec + float64_of_int nsec / 1e9)%float.

(** Line 191. *)
Definition updateFreq (iterations runtime : int) : float :=
  (float64_of_int iterations / Seconds runtime)%float.

(** Lines 190-193: the two summary lines. *)
Definition summary (runtime : int) (l : bg.locals) : list LogEntry :=
  [ Infow_RunFinished runtime (bg.iterations l) (updateFreq (bg.iterations l) runtime);
    Infow_Averages (movingaverage.Avg (bg.X l)) (movingaverage.Avg (bg.Y l))
                   (movingaverage.Avg (bg.Z l)) (movingaverage.Avg (bg.RX l))
                   (movingaverage.Avg (bg.RY l)) (movingaverage.Avg (bg.RZ l)) ].

(** Lines 196-200: the final orientation read.  [pose.EulerAngles()] on a
    nil [pose] is a nil dereference: the goroutine panics. *)
Definition final_orientation (sensor : MovementSensor) (l : bg.locals) : Status * list LogEntry :=
  let '(pose, err) := Orientation sensor (bg.iterations l) in
  let log3 := log_if_err err in
  match pose with
  | Some angles =>
      (Returned,
       log3 ++ [Infow_Orientation (spatialmath.Pitch angles) (spatialmath.Roll angles)
                                  (spatialmath.Yaw angles)])
  | None => (Panicked, log3)
  end.

(** What follows the loop, lines 190-200; [runtime] is what
    [time.Now().Sub(startTime)] returns. *)
Definition after_loop (runtime : int) (l : bg.locals) : bg.locals * list LogEntry :=
  match bg.imu l with
  | Some sensor =>
      let '(st, out) := final_orientation sensor l in
      (bg.set_status st l, summary runtime l ++ out)
  | None => (bg.set_status Panicked l, summary runtime l)
  end.

(** One scheduling slice of the goroutine: the test at the head of the
    loop (line 164) followed by one pass through the body, or by the code
    after the loop.  [cancelled] is [ctx.Err() != nil]. *)
Definition background (cancelled : bool) (runtime : int) (l : bg.locals) : bg.locals * list LogEntry :=
  if cancelled || (10000 <=? bg.iterations l)%Z then
    after_loop runtime l
  else
    match bg.imu l with
    | Some sensor => loop_body sensor l
    | None => (bg.set_status Panicked l, [])
    end.

(** A whole run of the goroutine, given what [ctx.Err() != nil] answers at
    each head of the loop (by number of completed passes) and the clock
    reading at loop exit.  [fuel] bounds the number of slices. *)
Fixpoint run (fuel : nat) (cancelled : int -> bool) (runtime : int) (l : bg.locals)
  : bg.locals * list LogEntry :=
  match bg.status l, fuel with
  | Running, S fuel' =>
      let '(l1, out1) := background (cancelled (bg.iterations l)) runtime l in
      let '(l2, out2) := run fuel' cancelled runtime l1 in
      (l2, out1 ++ out2)
  | _, _ => (l, [])
  end.

(** ** Operations of the component *)

(** The value [&stumbler{...}] built by [newStumbler], alone in the world. *)
Definition fresh : System :=
  {| s := {| imu := None; cancelFunc := None; wg := 0%Z |};
     contexts := []; goroutines := []; logger := [] |}.

(** Lines 111-113: [s.imu = imu] under the lock. *)
Definition set_imu (sensor : MovementSensor) (sys : System) : System :=
  {| s := {| imu := Some sensor; cancelFunc := cancelFunc (s sys); wg := wg (s sys) |};
     contexts := contexts sys; goroutines := goroutines sys; logger := logger sys |}.

(** [func (s *stumbler) startBackground() error]: [wg.Add(1)], a new
    cancellable context whose cancel function replaces [s.cancelFunc], and
    a goroutine started on the current [s.imu]. *)
Definition startBackground (sys : System) : System * option error :=
  let c := length (contexts sys) in
  ({| s := {| imu := imu (s sys); cancelFunc := Some c; wg := (wg (s sys) + 1)%Z |};
      contexts := contexts sys ++ [false];
      goroutines := goroutines sys ++ [bg.start c (imu (s sys))];
      logger := logger sys |},
   None).

(** [func (s *stumbler) Reconfigure(ctx, deps, conf) error] *)
Definition Reconfigure (deps : gmap string resource.Resource) (conf : resource.Config Config)
    (sys : System) : System * option error :=
  match resource.NativeConfig conf with
  | inr err => (sys, Some err)
  | inl newConf =>
      match FromDependencies deps (IMU newConf) with
      | inr err => (sys, Some err)
      | inl sensor => startBackground (set_imu sensor sys)
      end
  end.

(** [func newStumbler(ctx, deps, conf, logger) (resource.Resource, error)]:
    the new component is returned together with the error of
    [Reconfigure]. *)
Definition newStumbler (deps : gmap string resource.Resource) (conf : resource.Config Config)
  : System * option error :=
  Reconfigure deps conf fresh.

(** [ctx.Err() != nil] *)
Definition ctx_cancelled (sys : System) (c : nat) : bool :=
  match contexts sys !! c with
  | Some b => b
  | None => false
  end.

(** Calling the cancel function of context [c]. *)
Definition cancel (c : nat) (sys : System) : System :=
  {| s := s sys; contexts := <[c := true]> (contexts sys);
     goroutines := goroutines sys; logger := logger sys |}.

(** The deferred [s.wg.Done()] of line 151: it runs when the goroutine's
    function is left, by return or by panic. *)
Definition deferred_Done (st : Status) (c : stumbler) : stumbler :=
  match st with
  | Running => c
  | Returned | Panicked =>
      {| imu := imu c; cancelFunc := cancelFunc c; wg := (wg c - 1)%Z |}
  end.

(** Goroutine number [k] runs for one slice. *)
Definition goroutine_step (k : nat) (runtime : int) (sys : System) : System :=
  match goroutines sys !! k with
  | Some l =>
      match bg.status l with
      | Running =>
          let '(l', out) := background (ctx_cancelled sys (bg.ctx l)) runtime l in
          {| s := deferred_Done (bg.status l') (s sys);
             contexts := contexts sys;
             goroutines := <[k := l']> (goroutines sys);
             logger := logger sys ++ out |}
      | Returned | Panicked => sys
      end
  | None => sys
  end.

Definition is_running (l : bg.locals) : bool :=
  match bg.status l with
  | Running => true
  | Returned | Panicked => false
  end.

(** The goroutines that can still run, by number. *)
Fixpoint running_from (k : nat) (gs : list bg.locals) : list nat :=
  match gs with
  | [] => []
  | l :: gs' =>
      if is_running l then k :: running_from (S k) gs' else running_from (S k) gs'
  end.

Definition runnable (sys : System) : list nat :=
  running_from 0 (goroutines sys).

Definition is_panicked (l : bg.locals) : bool :=
  match bg.status l with
  | Panicked => true
  | Running | Returned => false
  end.

(** An unrecovered panic in a goroutine ends the whole process, once the
    deferred calls of that goroutine have run: from then on no call of the
    component returns. *)
Definition crashed (sys : System) : bool :=
  existsb is_panicked (goroutines sys).

(** [s.wg.Wait()]: the caller is blocked while the counter is not zero, and
    meanwhile the scheduler lets the goroutines run.  At each turn [sched]
    picks one of the runnable goroutines and gives the clock reading it
    would see.  [None] when the call does not return: a goroutine has
    panicked and the process is gone, or [fuel] turns do not bring the
    counter to zero, or nothing is left that could. *)
Fixpoint Wait (fuel : nat) (sched : nat -> nat * int) (sys : System) : option System :=
  if crashed sys then None
  else if (wg (s sys) =? 0)%Z then Some sys
  else
    match fuel with
    | O => None
    | S fuel' =>
        match runnable sys with
        | [] => None
        | r :: rs =>
            let '(choice, runtime) := sched O in
            let k := nth (choice mod length (r :: rs)) (r :: rs) r in
            Wait fuel' (fun t => sched (S t)) (goroutine_step k runtime sys)
        end
    end.

Definition log (e : LogEntry) (sys : System) : System :=
  {| s := s sys; contexts := contexts sys; goroutines := goroutines sys;
     logger := logger sys ++ [e] |}.

(** Lines 134-139 of [Close]: the log line, the lock, and the call of
    [s.cancelFunc] when it is not nil. *)
Definition Close_cancel (sys : System) : System :=
  let sys := log (Info "SMURF CLOSING STUMBLER") sys in
  match cancelFunc (s sys) with
  | Some c => cancel c sys
  | None => sys
  end.

(** [func (s *stumbler) Close(ctx) error].  The lock is held until the
    return, so nothing but goroutines runs during the wait.  [None] when
    the call does not return (see [Wait]). *)
Definition Close (fuel : nat) (sched : nat -> nat * int) (sys : System)
  : option (System * option error) :=
  match Wait fuel sched (Close_cancel sys) with
  | Some sys' => Some (sys', None)
  | None => None
  end.

(** A request value of type [interface{}]: a string, or a value of another
    dynamic type, kept as what [fmt] prints for it under [%s]. *)
Inductive Value : Type :=
| VString (str : string)
| VOther (rendering : string).

Global Instance Value_eq_dec : EqDecision Value.
Proof. solve_decision. Defined.

(** The text [fmt] substitutes for [%s]. *)
Definition fmt_s (v : Value) : string :=
  match v with
  | VString str => str
  | VOther rendering => rendering
  end.

(** [func (s *stumbler) DoCommand(ctx, req) (map[string]interface{}, error)],
    with the component it is called on. *)
Definition DoCommand (req : gmap string Value) (sys : System)
  : System * (option (gmap string Value) * option error) :=
  match req !! "command" with
  | None => (sys, (None, Some (errorString "missing 'command' string")))
  | Some cmd =>
      if decide (cmd = VString "get") then (sys, (Some ∅, None))
      else (sys, (None, Some (errorString (String.append "unknown command string " (fmt_s cmd)))))
  end.

(** ** Reachable states

    The states a component can be in: the atomic pieces of its operations
    in any order, interleaved with slices of its goroutines.
    [startBackground] is only ever called by [Reconfigure], right after it
    has stored a sensor. *)
Inductive reachable : System -> Prop :=
| reach_fresh : reachable fresh
| reach_set_imu sys sensor :
    reachable sys -> reachable (set_imu sensor sys)
| reach_startBackground sys :
    reachable sys -> imu (s sys) <> None -> reachable (fst (startBackground sys))
| reach_Close_cancel sys :
    reachable sys -> reachable (Close_cancel sys)
| reach_goroutine sys k runtime :
    reachable sys -> reachable (goroutine_step k runtime sys).

(** The slices goroutine [l] still needs before it is done. *)
Definition slices_left (sys : System) (l : bg.locals) : nat :=
  match bg.status l with
  | Running =>
      if ctx_cancelled sys (bg.ctx l) then 1%nat
      else S (Z.to_nat (10000 - bg.iterations l))
  | Returned | Panicked => O
  end.

Definition work_left (sys : System) : nat :=
  list_sum (map (slices_left sys) (goroutines sys)).


(** ** Auxiliary notions for stating the properties *)

(** [n] consecutive passes through the loop body. *)
Fixpoint passes (n : nat) (sensor : MovementSensor) (l : bg.locals) : bg.locals * list LogEntry :=
  match n with
  | O => (l, [])
  | S n' =>
      let '(l1, out1) := loop_body sensor l in
      let '(l2, out2) := passes n' sensor l1 in
      (l2, out1 ++ out2)
  end.

(** One component of the vectors returned by [n] consecutive calls of a
    read, the first of them numbered [from]; errors are ignored. *)
Definition readings (read : int -> r3.Vector * option error) (axis : r3.Vector -> float)
    (from : int) (n : nat) : list float :=
  map (fun i => axis (fst (read (from + Z.of_nat i)%Z))) (seq 0 n).

(** A sensor all of whose reads fail. *)
Definition always_fails (sensor : MovementSensor) : Prop :=
  forall i : int,
    snd (LinearAcceleration sensor i) <> None /\
    snd (AngularVelocity sensor i) <> None /\
    snd (Orientation sensor i) <> None.

(** ** Sensors used in examples *)

Definition zero_vector : r3.Vector := {| r3.X := 0%float; r3.Y := 0%float; r3.Z := 0%float |}.

Definition level : spatialmath.EulerAngles :=
  {| spatialmath.Roll := 0%float; spatialmath.Pitch := 0%float; spatialmath.Yaw := 0%float |}.

(** Every read succeeds; the acceleration is (2,0,0). *)
Definition steady : MovementSensor :=
  {| LinearAcceleration := fun _ => ({| r3.X := 2%float; r3.Y := 0%float; r3.Z := 0%float |}, None);
     AngularVelocity := fun _ => (zero_vector, None);
     Orientation := fun _ => (Some level, None) |}.

(** As [steady], but every acceleration read after the first fails and
    returns the zero vector with its error. *)
Definition flaky : MovementSensor :=
  {| LinearAcceleration := fun i =>
       if (i =? 0)%Z then ({| r3.X := 2%float; r3.Y := 0%float; r3.Z := 0%float |}, None)
       else (zero_vector, Some (errorString "i2c: read failed"));
     AngularVelocity := fun _ => (zero_vector, None);
     Orientation := fun _ => (Some level, None) |}.

(** Every read fails; each returns the last value the driver had cached
    together with the error. *)
Definition stale : MovementSensor :=
  {| LinearAcceleration := fun _ =>
       ({| r3.X := 1%float; r3.Y := 1%float; r3.Z := 1%float |}, Some (errorString "i2c: read failed"));
     AngularVelocity := fun _ =>
       ({| r3.X := 1%float; r3.Y := 1%float; r3.Z := 1%float |}, Some (errorString "i2c: read failed"));
     Orientation := fun _ =>
       (Some {| spatialmath.Roll := 1%float; spatialmath.Pitch := 2%float; spatialmath.Yaw := 3%float |},
        Some (errorString "i2c: read failed")) |}.

(** Every read fails and returns the zero value of its type: zero vectors
    and a nil orientation. *)
Definition dead : MovementSensor :=
  {| LinearAcceleration := fun _ => (zero_vector, Some (errorString "i2c: read failed"));
     AngularVelocity := fun _ => (zero_vector, Some (errorString "i2c: read failed"));
     Orientation := fun _ => (None, Some (errorString "i2c: read failed")) |}.

(** Every read fails; the acceleration and gyro reads return zero
    vectors and the orientation read a level orientation, each with its
    error. *)
Definition silent : MovementSensor :=
  {| LinearAcceleration := fun _ => (zero_vector, Some (errorString "i2c: read failed"));
     AngularVelocity := fun _ => (zero_vector, Some (errorString "i2c: read failed"));
     Orientation := fun _ => (Some level, Some (errorString "i2c: read failed")) |}.

(** A host configuration naming the sensor "imu0", and dependencies that
    hold it. *)
Definition conf0 : resource.Config Config :=
  {| resource.ConvertedAttributes := Some {| IMU := "imu0" |} |}.

Definition deps_of (sensor : MovementSensor) : gmap string resource.Resource :=
  {[ "imu0" := resource.MovementSensorResource sensor ]}.

(** A scheduler that always picks the first runnable goroutine and a clock
    that reads two seconds. *)
Definition sched0 : nat -> nat * int := fun _ => (O, 2000000000%Z).

(** What holds of every reachable state: the wait-group counter is the
    number of goroutines still running, the stored cancel function
    belongs to a context that exists, every goroutine came with its
    context, and no iteration counter is negative. *)
Definition consistent (sys : System) : Prop :=
  wg (s sys) = Z.of_nat (length (runnable sys)) /\
  (forall c, cancelFunc (s sys) = Some c -> (c < length (contexts sys))%nat) /\
  length (contexts sys) = length (goroutines sys) /\
  Forall (fun l => (0 <= bg.iterations l)%Z) (goroutines sys).

(** A goroutine whose sensor hands back an orientation at every
    orientation read, failed or not. *)
Definition returns_orientation (l : bg.locals) : Prop :=
  match bg.imu l with
  | Some sensor => forall i, fst (Orientation sensor i) <> None
  | None => False
  end.

(** No goroutine has panicked: the process is alive. *)
Definition no_panic (sys : System) : Prop :=
  Forall (fun l => bg.status l <> Panicked) (goroutines sys).

(** ** The entry point *)

Module host.


End host.


(** ** Further notions for stating properties *)

(** The six averages of [l] hold exactly what the reads of [sensor]
    returned in the passes made so far. *)
Definition fed_by (sensor : MovementSensor) (l : bg.locals) : Prop :=
  let n := Z.to_nat (bg.iterations l) in
  let accel := readings (LinearAcceleration sensor) in
  let gyro := readings (AngularVelocity sensor) in
  bg.X l = movingaverage.feed (accel r3.X 0%Z n) (movingaverage.New 50) /\
  bg.Y l = movingaverage.feed (accel r3.Y 0%Z n) (movingaverage.New 50) /\
  bg.Z l = movingaverage.feed (accel r3.Z 0%Z n) (movingaverage.New 50) /\
  bg.RX l = movingaverage.feed (gyro r3.X 0%Z n) (movingaverage.New 50) /\
  bg.RY l = movingaverage.feed (gyro r3.Y 0%Z n) (movingaverage.New 50) /\
  bg.RZ l = movingaverage.feed (gyro r3.Z 0%Z n) (movingaverage.New 50).

(** What holds of every goroutine of a reachable state. *)
Definition well_formed (l : bg.locals) : Prop :=
  (0 <= bg.iterations l <= 10000)%Z /\
  exists sensor, bg.imu l = Some sensor /\ fed_by sensor l.

(** The errors that passes [from], ..., [from + n - 1] log, in order. *)
Definition errors_of (sensor : MovementSensor) (from : int) (n : nat) : list LogEntry :=
  flat_map (fun i => log_if_err (snd (LinearAcceleration sensor (from + Z.of_nat i)%Z)) ++
                     log_if_err (snd (AngularVelocity sensor (from + Z.of_nat i)%Z)))
           (seq 0 n).

(** The number of "Run Finished" lines in a log. *)
Fixpoint count_RunFinished (out : list LogEntry) : nat :=
  match out with
  | [] => O
  | Infow_RunFinished _ _ _ :: out' => S (count_RunFinished out')
  | _ :: out' => count_RunFinished out'
  end.

(** A goroutine that has left its function did so for one of the two
    reasons the head of the loop tests. *)
Definition stopped_for_cause (sys : System) (l : bg.locals) : Prop :=
  bg.status l <> Running ->
  ctx_cancelled sys (bg.ctx l) = true \/ bg.iterations l = 10000%Z.

(** The component built on [steady] and closed at once, when [Close]
    returns. *)
Definition closed_steady : System :=
  match Close 1 sched0 (fst (newStumbler (deps_of steady) conf0)) with
  | Some (sys', _) => sys'
  | None => fresh
  end.
(** * Properties *)

(** ** The windowed average *)

Section WindowedAverage.
Import movingaverage.

Lemma lastn_short {A : Type} (n : nat) (l : list A) :
  (length l <= n)%nat -> lastn n l = l.
Proof.
  intros H. unfold lastn. replace (length l - n)%nat with O by lia. reflexivity.
Qed.

Lemma lastn_length {A : Type} (n : nat) (l : list A) :
  length (lastn n l) = Nat.min n (length l).
Proof. unfold lastn. rewrite length_drop. lia. Qed.

Lemma lastn_snoc_short {A : Type} (n : nat) (l : list A) (x : A) :
  (length l < n)%nat -> lastn n (l ++ [x]) = lastn n l ++ [x].
Proof.
  intros H. rewrite !lastn_short; [reflexivity | lia |].
  rewrite length_app. simpl. lia.
Qed.

Lemma lastn_snoc_full {A : Type} (n : nat) (l : list A) (x : A) :
  (0 < n <= length l)%nat -> lastn n (l ++ [x]) = tail (lastn n l) ++ [x].
Proof.
  intros H. unfold lastn. rewrite length_app. simpl.
  replace (length l + 1 - n)%nat with (S (length l - n)) by lia.
  rewrite drop_app_le by lia.
  f_equal. generalize (length l - n)%nat as k. clear.
  intros k. revert l. induction k as [|k IH]; intros [|y l]; simpl; auto.
Qed.

Lemma feed_snoc values v ma : feed (values ++ [v]) ma = Add v (feed values ma).
Proof. unfold feed. rewrite fold_left_app. reflexivity. Qed.

Lemma fsum_snoc values v : fsum (values ++ [v]) = (fsum values + v)%float.
Proof. unfold fsum. rewrite fold_left_app. reflexivity. Qed.

(** The invariant of a window fed from empty: it holds the last
    [windowCapacity] values. *)
Lemma feed_New (cap : nat) (values : list float) :
  (0 < cap)%nat ->
  windowCapacity (feed values (New cap)) = cap /\
  buffer (feed values (New cap)) = lastn cap values.
Proof.
  intros Hcap. induction values as [|v values IH] using rev_ind.
  - simpl. split; reflexivity.
  - rewrite feed_snoc. destruct IH as (Hc & Hb).
    unfold Add. rewrite Hc, Hb.
    destruct (lastn cap values) as [|oldest rest] eqn:E.
    + assert (values = []) as ->.
      { apply (f_equal (@length float)) in E. rewrite lastn_length in E. simpl in E.
        destruct values; [reflexivity | simpl in E; lia]. }
      rewrite (lastn_short cap ([] ++ [v])) by (simpl; lia).
      split; reflexivity.
    + assert (length (oldest :: rest) = Nat.min cap (length values)) as Hl
        by (rewrite <- E; apply lastn_length).
      destruct (Nat.eqb_spec (length (oldest :: rest)) cap) as [Heq|Hne];
        cbn [windowCapacity buffer]; (split; [reflexivity|]).
      * rewrite lastn_snoc_full by lia. rewrite E. reflexivity.
      * rewrite lastn_snoc_short by lia. rewrite E. reflexivity.
Qed.

(** Until the window is full the running sum is the sum of what was fed,
    each addition rounded. *)
Lemma feed_runningSum_short (cap : nat) (values : list float) :
  (length values <= cap)%nat -> runningSum (feed values (New cap)) = fsum values.
Proof.
  induction values as [|v values IH] using rev_ind; intros Hlen; [reflexivity|].
  rewrite length_app in Hlen. simpl in Hlen.
  rewrite feed_snoc, fsum_snoc, <- IH by lia.
  destruct (feed_New cap values) as (Hc & Hb); [lia|].
  unfold Add. rewrite Hc, Hb, lastn_short by lia.
  destruct values as [|x values]; [reflexivity|].
  destruct (Nat.eqb_spec (length (x :: values)) cap) as [Heq|Hne]; [lia | reflexivity].
Qed.

(** On a full window [Add] subtracts the oldest value before it adds the
    new one. *)
Lemma feed_runningSum_full (cap : nat) (values : list float) (v : float) :
  (0 < cap <= length values)%nat ->
  runningSum (feed (values ++ [v]) (New cap)) =
  (runningSum (feed values (New cap)) - hd 0%float (lastn cap values) + v)%float.
Proof.
  intros Hlen. rewrite feed_snoc.
  destruct (feed_New cap values) as (Hc & Hb); [lia|].
  unfold Add. rewrite Hc, Hb.
  assert (length (lastn cap values) = cap) as Hl by (rewrite lastn_length; lia).
  destruct (lastn cap values) as [|oldest rest]; [simpl in Hl; lia|].
  rewrite Hl, Nat.eqb_refl. reflexivity.
Qed.

End WindowedAverage.

(** The claim C3 as the specification words it fails in [float64]: feed
    1e16 and then fifty times 1.  The fifty additions are absorbed by the
    running sum, the eviction of 1e16 leaves 0 and the last addition 1:
    the average of a window that holds fifty times 1 comes out as 1/50. *)
Lemma absorbed_sum_skews_average :
  let values := 1e16%float :: repeat 1%float 50 in
  length values = 51%nat /\
  lastn 50 values = repeat 1%float 50 /\
  (fsum (lastn 50 values) / 50 = 1)%float /\
  movingaverage.Avg (movingaverage.feed values (movingaverage.New 50)) = (1 / 50)%float.
Proof. cbv zeta. repeat apply conj; vm_compute; reflexivity. Qed.

(** C3 (amended). For every sequence of N values fed by [Add] to one window
    of capacity 50: the window holds exactly the last min(N, 50) values,
    and the average is the running sum divided by their number, or the
    sentinel 0 when N = 0.  With N <= 50 the running sum is the [float64]
    sum of all N values in the order fed, so the average is their mean as
    [float64] computes it.  From the 50th value on, each [Add] subtracts
    the evicted value from the rounded running sum and adds the new one:
    the running sum carries the rounding of all that went before.  (The
    window is the one the specification describes.) *)
Theorem WindowedAverage_Average (values : list float) :
  let N := length values in
  let w := movingaverage.feed values (movingaverage.New 50) in
  movingaverage.buffer w = lastn 50 values /\
  (N = O -> movingaverage.Avg w = 0%float) /\
  ((0 < N)%nat ->
     movingaverage.Avg w =
     (movingaverage.runningSum w / float64_of_int (Z.of_nat (Nat.min 50 N)))%float) /\
  ((N <= 50)%nat -> movingaverage.runningSum w = fsum values) /\
  ((0 < N <= 50)%nat ->
     movingaverage.Avg w = (fsum values / float64_of_int (Z.of_nat N))%float) /\
  (forall v, (50 <= N)%nat ->
     movingaverage.runningSum (movingaverage.feed (values ++ [v]) (movingaverage.New 50)) =
     (movingaverage.runningSum w - hd 0%float (lastn 50 values) + v)%float).
Proof.
  intros N w. subst w.
  destruct (feed_New 50 values) as (_ & Hb); [lia|].
  assert ((0 < N)%nat ->
          movingaverage.Avg (movingaverage.feed values (movingaverage.New 50)) =
          (movingaverage.runningSum (movingaverage.feed values (movingaverage.New 50)) /
           float64_of_int (Z.of_nat (Nat.min 50 N)))%float) as HA.
  { intros HN. unfold movingaverage.Avg. rewrite Hb.
    pose proof (lastn_length 50 values) as Hl. fold N in Hl.
    destruct (lastn 50 values) as [|x l]; [cbn [length] in Hl; lia|].
    rewrite Hl. reflexivity. }
  split; [exact Hb|]. split; [|split; [exact HA|split; [|split]]].
  - intros HN. destruct values; [reflexivity | discriminate].
  - intros HN. apply feed_runningSum_short. exact HN.
  - intros [H0 HN]. rewrite HA by exact H0.
    rewrite feed_runningSum_short by exact HN.
    rewrite Nat.min_r by exact HN. reflexivity.
  - intros v HN. apply feed_runningSum_full. fold N. lia.
Qed.

Lemma WindowedAverage_Average_witness :
  movingaverage.Avg (movingaverage.feed [1; 2; 4]%float (movingaverage.New 50)) =
  (fsum [1; 2; 4]%float / float64_of_int (Z.of_nat (length [1; 2; 4]%float)))%float.
Proof.
  apply (proj1 (proj2 (proj2 (proj2 (proj2 (WindowedAverage_Average [1; 2; 4]%float)))))).
  simpl. lia.
Defined.

(** The scenario of the specification: fifty times 1, then 3, averages
    to 52/50, the [float64] nearest to 1.04. *)
Example fifty_ones_then_three :
  movingaverage.Avg
    (movingaverage.feed (repeat 1%float 50 ++ [3%float]) (movingaverage.New 50))
  = (52 / 50)%float.
Proof. vm_compute. reflexivity. Qed.

(** ** One pass through the loop *)

Section LoopBody.
Import movingaverage.

(** The claim as the specification words it fails: [flaky] serves one good
    acceleration, then a failed read; the failed read is fed to the
    averages all the same and halves the X average. *)
Lemma failed_read_still_feeds_averages :
  let l1 := fst (loop_body flaky (bg.start 0 (Some flaky))) in
  let l2 := fst (loop_body flaky l1) in
  snd (LinearAcceleration flaky (bg.iterations l1)) = Some (errorString "i2c: read failed") /\
  snd (loop_body flaky l1) = [Error (errorString "i2c: read failed")] /\
  bg.X l2 <> bg.X l1 /\
  Avg (bg.X l1) = 2%float /\ Avg (bg.X l2) = 1%float.
Proof.
  cbv zeta. repeat split; try (vm_compute; reflexivity).
  vm_compute. discriminate.
Qed.

(** What one pass does, read off the definition. *)
Lemma loop_body_spec (sensor : MovementSensor) (l : bg.locals) :
  let accel := LinearAcceleration sensor (bg.iterations l) in
  let gyro := AngularVelocity sensor (bg.iterations l) in
  let l' := fst (loop_body sensor l) in
  snd (loop_body sensor l) = log_if_err (snd accel) ++ log_if_err (snd gyro) /\
  (bg.X l' = Add (r3.X (fst accel)) (bg.X l) /\
   bg.Y l' = Add (r3.Y (fst accel)) (bg.Y l) /\
   bg.Z l' = Add (r3.Z (fst accel)) (bg.Z l)) /\
  (bg.RX l' = Add (r3.X (fst gyro)) (bg.RX l) /\
   bg.RY l' = Add (r3.Y (fst gyro)) (bg.RY l) /\
   bg.RZ l' = Add (r3.Z (fst gyro)) (bg.RZ l)) /\
  bg.iterations l' = (bg.iterations l + 1)%Z /\
  bg.status l' = Running /\
  bg.ctx l' = bg.ctx l /\ bg.imu l' = bg.imu l.
Proof.
  cbv zeta. unfold loop_body.
  destruct (LinearAcceleration sensor (bg.iterations l)) as [accel e1].
  destruct (AngularVelocity sensor (bg.iterations l)) as [gyro e2].
  simpl. repeat split; reflexivity.
Qed.

(** C1 (amended). In every pass through the loop body each failing read is
    logged, and the vector returned by each read, failed or not, is fed to
    its three averages; the pass ends with the counter incremented and the
    goroutine still in its loop.  The acceleration channels depend on the
    acceleration read only and the gyro channels on the gyro read only. *)
Theorem loop_body_logs_and_feeds (sensor : MovementSensor) (l : bg.locals) :
  let accel := LinearAcceleration sensor (bg.iterations l) in
  let gyro := AngularVelocity sensor (bg.iterations l) in
  let l' := fst (loop_body sensor l) in
  (snd (loop_body sensor l) = log_if_err (snd accel) ++ log_if_err (snd gyro) /\
   (forall e, snd accel = Some e -> In (Error e) (snd (loop_body sensor l))) /\
   (forall e, snd gyro = Some e -> In (Error e) (snd (loop_body sensor l)))) /\
  (bg.X l' = Add (r3.X (fst accel)) (bg.X l) /\
   bg.Y l' = Add (r3.Y (fst accel)) (bg.Y l) /\
   bg.Z l' = Add (r3.Z (fst accel)) (bg.Z l)) /\
  (bg.RX l' = Add (r3.X (fst gyro)) (bg.RX l) /\
   bg.RY l' = Add (r3.Y (fst gyro)) (bg.RY l) /\
   bg.RZ l' = Add (r3.Z (fst gyro)) (bg.RZ l)) /\
  bg.iterations l' = (bg.iterations l + 1)%Z /\
  bg.status l' = Running /\
  bg.ctx l' = bg.ctx l /\ bg.imu l' = bg.imu l.
Proof.
  pose proof (loop_body_spec sensor l) as H. cbv zeta in *.
  destruct H as (Hlog & HA & HG & Hrest).
  split; [|split; [exact HA | split; [exact HG | exact Hrest]]].
  split; [exact Hlog|]. rewrite Hlog.
  split; intros e ->; apply in_or_app; [left | right]; left; reflexivity.
Qed.

Lemma loop_body_logs_and_feeds_witness :
  In (Error (errorString "i2c: read failed"))
     (snd (loop_body flaky (fst (loop_body flaky (bg.start 0 (Some flaky)))))).
Proof.
  apply (proj1 (proj2 (proj1
           (loop_body_logs_and_feeds flaky (fst (loop_body flaky (bg.start 0 (Some flaky)))))))).
  reflexivity.
Defined.

Lemma readings_S read axis from n :
  readings read axis from (S n) =
  axis (fst (read from)) :: readings read axis (from + 1)%Z n.
Proof.
  unfold readings. simpl. rewrite Z.add_0_r. f_equal.
  rewrite <- seq_shift, map_map. apply map_ext. intros i. do 3 f_equal. lia.
Qed.

(** What [n] passes do to the local variables. *)
Lemma passes_spec (sensor : MovementSensor) (n : nat) (l : bg.locals) :
  let l' := fst (passes n sensor l) in
  bg.iterations l' = (bg.iterations l + Z.of_nat n)%Z /\
  bg.X l' = feed (readings (LinearAcceleration sensor) r3.X (bg.iterations l) n) (bg.X l) /\
  bg.Y l' = feed (readings (LinearAcceleration sensor) r3.Y (bg.iterations l) n) (bg.Y l) /\
  bg.Z l' = feed (readings (LinearAcceleration sensor) r3.Z (bg.iterations l) n) (bg.Z l) /\
  bg.RX l' = feed (readings (AngularVelocity sensor) r3.X (bg.iterations l) n) (bg.RX l) /\
  bg.RY l' = feed (readings (AngularVelocity sensor) r3.Y (bg.iterations l) n) (bg.RY l) /\
  bg.RZ l' = feed (readings (AngularVelocity sensor) r3.Z (bg.iterations l) n) (bg.RZ l) /\
  bg.ctx l' = bg.ctx l /\ bg.imu l' = bg.imu l /\
  (bg.status l = Running -> bg.status l' = Running).
Proof.
  revert l. induction n as [|n IH]; intros l; cbv zeta.
  - simpl. rewrite Z.add_0_r. repeat split; auto.
  - cbn [passes].
    pose proof (loop_body_spec sensor l) as H. cbv zeta in H.
    destruct (loop_body sensor l) as [l1 out1]. cbn [fst snd] in H.
    destruct H as (_ & (HX & HY & HZ) & (HRX & HRY & HRZ) & Hit & Hst & Hctx & Himu).
    specialize (IH l1). cbv zeta in IH.
    destruct (passes n sensor l1) as [l2 out2]. cbn [fst snd] in *.
    destruct IH as (Iit & IX & IY & IZ & IRX & IRY & IRZ & Ictx & Iimu & Ist).
    rewrite !readings_S. unfold feed in *. cbn [fold_left].
    rewrite <- HX, <- HY, <- HZ, <- HRX, <- HRY, <- HRZ, <- Hit.
    repeat split; auto; try congruence. lia.
Qed.

End LoopBody.

(** ** Leaving the loop *)

Section AfterLoop.
Import movingaverage.

Lemma final_orientation_exits sensor l :
  fst (final_orientation sensor l) <> Running.
Proof.
  unfold final_orientation.
  destruct (Orientation sensor (bg.iterations l)) as [[angles|] err]; simpl; discriminate.
Qed.

(** The code after the loop always leaves the function, and touches
    nothing but [status]. *)
Lemma after_loop_exits runtime l :
  let l' := fst (after_loop runtime l) in
  bg.status l' <> Running /\
  l' = bg.set_status (bg.status l') l.
Proof.
  cbv zeta. unfold after_loop. destruct (bg.imu l) as [sensor|].
  - pose proof (final_orientation_exits sensor l) as H.
    destruct (final_orientation sensor l) as [st out]. simpl in *. auto.
  - simpl. split; [discriminate | reflexivity].
Qed.

Lemma deferred_Done_exit st comp :
  st <> Running -> wg (deferred_Done st comp) = (wg comp - 1)%Z.
Proof. destruct st; simpl; congruence. Qed.

Lemma run_O cancelled runtime l : run O cancelled runtime l = (l, []).
Proof. simpl. destruct (bg.status l); reflexivity. Qed.

(** An uncancelled goroutine with [n] passes to go performs them. *)
Lemma run_passes sensor runtime (n fuel : nat) (l : bg.locals) :
  bg.status l = Running -> bg.imu l = Some sensor ->
  (bg.iterations l + Z.of_nat n <= 10000)%Z ->
  run (n + fuel) (fun _ => false) runtime l =
  (fst (run fuel (fun _ => false) runtime (fst (passes n sensor l))),
   snd (passes n sensor l) ++
   snd (run fuel (fun _ => false) runtime (fst (passes n sensor l)))).
Proof.
  revert l. induction n as [|n IH]; intros l Hst Himu Hle.
  - simpl. destruct (run fuel _ runtime l). reflexivity.
  - cbn [Nat.add run passes]. rewrite Hst.
    unfold background. cbn [orb].
    destruct (Z.leb_spec 10000 (bg.iterations l)) as [Hge|Hlt]; [lia|].
    rewrite Himu.
    pose proof (loop_body_spec sensor l) as H. cbv zeta in H.
    destruct (loop_body sensor l) as [l1 out1]. cbn [fst snd] in H.
    destruct H as (_ & _ & _ & Hit & Hst1 & _ & Himu1).
    rewrite IH by (try congruence; lia).
    destruct (passes n sensor l1) as [l2 out2]. cbn [fst snd].
    rewrite app_assoc. reflexivity.
Qed.

(** Left alone, a goroutine runs its 10000 passes and then the code after
    the loop: 10001 slices in all. *)
Lemma run_to_budget sensor c runtime (n : nat) :
  Z.of_nat n = 10000%Z ->
  let l0 := bg.start c (Some sensor) in
  let ln := fst (passes n sensor l0) in
  run n (fun _ => false) runtime l0 = (ln, snd (passes n sensor l0) ++ []) /\
  run (S n) (fun _ => false) runtime l0 =
    (fst (after_loop runtime ln),
     snd (passes n sensor l0) ++ snd (after_loop runtime ln) ++ []).
Proof.
  intros Hn. cbv zeta. split.
  - rewrite <- (Nat.add_0_r n) at 1.
    rewrite (run_passes sensor) by (simpl; auto; lia).
    rewrite run_O. reflexivity.
  - rewrite <- (Nat.add_1_r n) at 1.
    rewrite (run_passes sensor) by (simpl; auto; lia).
    pose proof (passes_spec sensor n (bg.start c (Some sensor))) as H.
    cbv zeta in H. destruct H as (Hit & _ & _ & _ & _ & _ & _ & _ & _ & Hst).
    specialize (Hst eq_refl).
    set (l := fst (passes n sensor (bg.start c (Some sensor)))) in *.
    cbn [run]. rewrite Hst. unfold background.
    replace (10000 <=? bg.iterations l)%Z with true
      by (symmetry; apply Z.leb_le; rewrite Hit; simpl; lia).
    rewrite orb_true_r.
    pose proof (after_loop_exits runtime l) as [Hex _].
    destruct (after_loop runtime l) as [l' out]. cbn [fst snd] in *.
    destruct (bg.status l'); try congruence; reflexivity.
Qed.

Lemma after_loop_fst_runtime runtime runtime' l :
  fst (after_loop runtime l) = fst (after_loop runtime' l).
Proof.
  unfold after_loop. destruct (bg.imu l) as [sensor|]; [|reflexivity].
  destruct (final_orientation sensor l) as [st out]. reflexivity.
Qed.

Lemma passes_snoc sensor k : forall l,
  fst (passes (S k) sensor l) = fst (loop_body sensor (fst (passes k sensor l))).
Proof.
  induction k as [|k IH]; intros l.
  - cbn [passes fst]. destruct (loop_body sensor l) as [l1 out1]. reflexivity.
  - specialize (IH (fst (loop_body sensor l))).
    change (passes (S (S k)) sensor l) with
      (let '(l1, out1) := loop_body sensor l in
       let '(l2, out2) := passes (S k) sensor l1 in (l2, out1 ++ out2)).
    change (passes (S k) sensor l) with
      (let '(l1, out1) := loop_body sensor l in
       let '(l2, out2) := passes k sensor l1 in (l2, out1 ++ out2)).
    destruct (loop_body sensor l) as [l1 out1]. cbn [fst] in IH.
    destruct (passes (S k) sensor l1) as [l2 out2].
    destruct (passes k sensor l1) as [l3 out3]. cbn [fst] in *. exact IH.
Qed.

End AfterLoop.

Section Summary.
Import movingaverage.

(** The claim C5 as the specification words it fails: the orientation read
    of [stale] fails, and the orientation line is written all the same,
    after the error. *)
Lemma failed_orientation_read_still_emitted :
  let l := bg.start 0 (Some stale) in
  snd (Orientation stale (bg.iterations l)) = Some (errorString "i2c: read failed") /\
  after_loop 1000000000 l =
    (bg.set_status Returned l,
     summary 1000000000 l ++
     [Error (errorString "i2c: read failed"); Infow_Orientation 2 1 3]) /\
  In (Infow_Orientation 2 1 3) (snd (after_loop 1000000000 l)).
Proof.
  cbv zeta. repeat apply conj; try (vm_compute; reflexivity).
  vm_compute. tauto.
Qed.

(** A failed orientation read that returns a nil orientation makes the
    goroutine panic after it has logged the error. *)
Lemma nil_orientation_panics :
  final_orientation dead (bg.start 0 (Some dead)) =
  (Panicked, [Error (errorString "i2c: read failed")]).
Proof. reflexivity. Qed.

(** C5 (amended). After the loop the goroutine reads the orientation once.
    When the read returns an orientation, with or without an error, the
    error (if any) is logged and then pitch, roll and yaw are written; the
    function returns.  However the function is left, the deferred
    [wg.Done()] runs: completion is signalled on every path. *)
Theorem after_loop_orientation (runtime : int) (l : bg.locals) :
  (bg.status (fst (after_loop runtime l)) <> Running /\
   forall comp,
     wg (deferred_Done (bg.status (fst (after_loop runtime l))) comp) = (wg comp - 1)%Z) /\
  forall sensor angles,
    bg.imu l = Some sensor ->
    fst (Orientation sensor (bg.iterations l)) = Some angles ->
    after_loop runtime l =
      (bg.set_status Returned l,
       summary runtime l ++
       log_if_err (snd (Orientation sensor (bg.iterations l))) ++
       [Infow_Orientation (spatialmath.Pitch angles) (spatialmath.Roll angles)
                          (spatialmath.Yaw angles)]).
Proof.
  pose proof (after_loop_exits runtime l) as [Hex _].
  split; [split; [exact Hex | intros comp; apply deferred_Done_exit, Hex] |].
  intros sensor angles Himu Hpose. unfold after_loop, final_orientation.
  rewrite Himu. destruct (Orientation sensor (bg.iterations l)) as [pose err].
  simpl in Hpose. subst pose. reflexivity.
Qed.

Lemma after_loop_orientation_witness :
  after_loop 0 (bg.start 0 (Some stale)) =
  (bg.set_status Returned (bg.start 0 (Some stale)),
   summary 0 (bg.start 0 (Some stale)) ++
   log_if_err (snd (Orientation stale 0)) ++ [Infow_Orientation 2 1 3]).
Proof.
  exact (proj2 (after_loop_orientation 0 (bg.start 0 (Some stale))) stale
           {| spatialmath.Roll := 1; spatialmath.Pitch := 2; spatialmath.Yaw := 3 |}
           eq_refl eq_refl).
Defined.

(** The claim C8 as the specification words it fails: a goroutine whose
    context is cancelled before its first test and whose clock has not
    advanced logs a frequency that is not a number, the plain quotient
    0/0. *)
Lemma zero_runtime_frequency_is_nan :
  match snd (background true 0 (bg.start 0 (Some steady))) with
  | Infow_RunFinished runtime iterations frequency :: _ =>
      runtime = 0%Z /\ iterations = 0%Z /\ PrimFloat.is_nan frequency = true
  | _ => False
  end.
Proof. vm_compute. repeat split; reflexivity. Qed.

Lemma updateFreq_zero_runtime_table :
  forallb (fun n => PrimFloat.is_infinity (updateFreq (Z.of_nat (S n)) 0))
          (seq 0 (Z.to_nat 10000)) = true.
Proof. vm_compute. reflexivity. Qed.

(** C8 (amended). On loop exit the goroutine logs the run time, the
    iteration count and the frequency [float64(iterations) /
    runtime.Seconds()], then the six averages.  The division is not
    guarded: with zero elapsed time the divisor is 0 and the frequency is
    +Inf, or NaN when no iteration was made. *)
Theorem after_loop_summary (runtime : int) (l : bg.locals) :
  (exists rest,
     snd (after_loop runtime l) =
     Infow_RunFinished runtime (bg.iterations l)
       (float64_of_int (bg.iterations l) / Seconds runtime)%float ::
     Infow_Averages (Avg (bg.X l)) (Avg (bg.Y l)) (Avg (bg.Z l))
                    (Avg (bg.RX l)) (Avg (bg.RY l)) (Avg (bg.RZ l)) :: rest) /\
  Seconds 0 = 0%float /\
  PrimFloat.is_nan (updateFreq 0 0) = true /\
  forall n : int, (0 < n <= 10000)%Z -> PrimFloat.is_infinity (updateFreq n 0) = true.
Proof.
  split; [|split; [|split]].
  - unfold after_loop. destruct (bg.imu l) as [sensor|].
    + destruct (final_orientation sensor l) as [st out]. exists out. reflexivity.
    + exists []. reflexivity.
  - vm_compute. reflexivity.
  - vm_compute. reflexivity.
  - intros n Hn.
    pose proof updateFreq_zero_runtime_table as T.
    rewrite forallb_forall in T.
    specialize (T (Z.to_nat (n - 1))).
    replace (Z.of_nat (S (Z.to_nat (n - 1)))) with n in T by lia.
    apply T. apply in_seq. lia.
Qed.

Lemma after_loop_summary_witness :
  PrimFloat.is_infinity (updateFreq 10000 0) = true.
Proof.
  apply (proj2 (proj2 (proj2 (after_loop_summary 0 (bg.start 0 None))))).
  lia.
Defined.

End Summary.

(** ** Requests and configuration *)

Section Requests.

(** C6. A request whose "command" is the string "get" succeeds with an
    empty map; a request whose "command" is any other string [str] fails
    with the error whose text is "unknown command string " followed by
    [str] itself, and one whose "command" is a value of another type
    fails with that text followed by what [%s] prints for the value; a
    request without a "command" key fails with the error "missing
    'command' string". *)
Theorem DoCommand_dispatch (req : gmap string Value) (sys : System) :
  (req !! "command" = Some (VString "get") ->
     snd (DoCommand req sys) = (Some ∅, None)) /\
  (forall str, req !! "command" = Some (VString str) -> str <> "get" ->
     snd (DoCommand req sys) =
     (None, Some (errorString (String.append "unknown command string " str)))) /\
  (forall rendering, req !! "command" = Some (VOther rendering) ->
     snd (DoCommand req sys) =
     (None, Some (errorString (String.append "unknown command string " rendering)))) /\
  (req !! "command" = None ->
     snd (DoCommand req sys) = (None, Some (errorString "missing 'command' string"))).
Proof.
  unfold DoCommand. repeat apply conj.
  - intros ->. rewrite decide_True by reflexivity. reflexivity.
  - intros str -> Hne. rewrite decide_False by congruence. reflexivity.
  - intros rendering ->. rewrite decide_False by discriminate. reflexivity.
  - intros ->. reflexivity.
Qed.

Lemma DoCommand_dispatch_witness :
  snd (DoCommand {[ "command" := VString "get" ]} fresh) = (Some ∅, None) /\
  snd (DoCommand {[ "command" := VString "bogus" ]} fresh) =
    (None, Some (errorString "unknown command string bogus")) /\
  snd (DoCommand {[ "command" := VString "stop" ]} fresh) =
    (None, Some (errorString "unknown command string stop")) /\
  snd (DoCommand {[ "command" := VOther "%!s(int=5)" ]} fresh) =
    (None, Some (errorString "unknown command string %!s(int=5)")) /\
  snd (DoCommand ∅ fresh) = (None, Some (errorString "missing 'command' string")).
Proof.
  repeat apply conj.
  - apply (proj1 (DoCommand_dispatch {[ "command" := VString "get" ]} fresh)).
    reflexivity.
  - apply (proj1 (proj2 (DoCommand_dispatch {[ "command" := VString "bogus" ]} fresh))
             "bogus").
    + reflexivity.
    + discriminate.
  - apply (proj1 (proj2 (DoCommand_dispatch {[ "command" := VString "stop" ]} fresh))
             "stop").
    + reflexivity.
    + discriminate.
  - apply (proj1 (proj2 (proj2 (DoCommand_dispatch {[ "command" := VOther "%!s(int=5)" ]} fresh)))
             "%!s(int=5)").
    reflexivity.
  - apply (proj2 (proj2 (proj2 (DoCommand_dispatch ∅ fresh)))). reflexivity.
Defined.

(** C10. [DoCommand] leaves the component as it found it, whatever the
    request and whatever the outcome: the sensor, the cancel function and
    the wait group (and the contexts, goroutines and log) are unchanged. *)
Theorem DoCommand_frame (req : gmap string Value) (sys : System) :
  fst (DoCommand req sys) = sys /\
  imu (s (fst (DoCommand req sys))) = imu (s sys) /\
  cancelFunc (s (fst (DoCommand req sys))) = cancelFunc (s sys) /\
  wg (s (fst (DoCommand req sys))) = wg (s sys).
Proof.
  assert (fst (DoCommand req sys) = sys) as H.
  { unfold DoCommand. destruct (req !! "command") as [cmd|]; [|reflexivity].
    destruct (decide (cmd = VString "get")); reflexivity. }
  rewrite H. repeat apply conj; reflexivity.
Qed.

(** An error of [Reconfigure] is raised before anything is stored or
    started. *)
Lemma Reconfigure_error deps conf sys e :
  snd (Reconfigure deps conf sys) = Some e -> fst (Reconfigure deps conf sys) = sys.
Proof.
  unfold Reconfigure.
  destruct (resource.NativeConfig conf) as [newConf|e1]; [|reflexivity].
  destruct (FromDependencies deps (IMU newConf)) as [sensor|e2]; [|reflexivity].
  simpl. discriminate.
Qed.

(** C9. [Validate] on a configuration whose [imu] is empty (absent in the
    JSON) fails with the field-required error naming "imu" and lists no
    dependency.  [Validate] has no access to the component; and whenever
    [Reconfigure] returns an error the component is exactly as before: no
    sensor stored, no goroutine started.  Such is the case for an empty
    sensor name, which no dependency carries. *)
Theorem Validate_requires_imu (path : string) :
  Validate {| IMU := "" |} path =
    (None, Some (ConfigValidationFieldRequiredError path "imu")) /\
  (forall deps conf sys e,
     snd (Reconfigure deps conf sys) = Some e ->
     fst (Reconfigure deps conf sys) = sys) /\
  (forall (deps : gmap string resource.Resource) sys,
     deps !! "" = None ->
     Reconfigure deps {| resource.ConvertedAttributes := Some {| IMU := "" |} |} sys =
     (sys, Some (DependencyNotFoundError ""))).
Proof.
  repeat apply conj.
  - reflexivity.
  - apply Reconfigure_error.
  - intros deps sys Hd. unfold Reconfigure, FromDependencies. simpl. rewrite Hd. reflexivity.
Qed.

Lemma Validate_requires_imu_witness :
  fst (Reconfigure (deps_of steady) {| resource.ConvertedAttributes := None |} fresh) = fresh /\
  Reconfigure (deps_of steady) {| resource.ConvertedAttributes := Some {| IMU := "" |} |} fresh =
    (fresh, Some (DependencyNotFoundError "")).
Proof.
  split.
  - apply (proj1 (proj2 (Validate_requires_imu "")) (deps_of steady)
             {| resource.ConvertedAttributes := None |} fresh UnexpectedTypeError).
    reflexivity.
  - apply (proj2 (proj2 (Validate_requires_imu "")) (deps_of steady) fresh).
    reflexivity.
Defined.

Lemma Validate_accepts_named_imu (cfg : Config) (path : string) :
  IMU cfg <> "" -> Validate cfg path = (Some [IMU cfg], None).
Proof. intros H. unfold Validate. rewrite decide_False by exact H. reflexivity. Qed.

End Requests.

(** ** The lifecycle: goroutines, the wait group, [Close] *)

Section Lifecycle.

Lemma running_from_app b gs l :
  running_from b (gs ++ [l]) =
  running_from b gs ++ (if is_running l then [(b + length gs)%nat] else []).
Proof.
  revert b. induction gs as [|g gs IH]; intros b; simpl.
  - rewrite Nat.add_0_r. reflexivity.
  - rewrite IH. replace (S b + length gs)%nat with (b + S (length gs))%nat by lia.
    destruct (is_running g); reflexivity.
Qed.

Lemma running_from_In b gs k :
  In k (running_from b gs) ->
  exists l, gs !! (k - b)%nat = Some l /\ is_running l = true /\ (b <= k)%nat.
Proof.
  revert b. induction gs as [|g gs IH]; intros b; simpl; [tauto|].
  destruct (is_running g) eqn:Hg.
  - intros [<- | Hin].
    + exists g. rewrite Nat.sub_diag. auto.
    + destruct (IH _ Hin) as (l & Hl & Hr & Hle). exists l.
      replace (k - b)%nat with (S (k - S b)) by lia. auto with lia.
  - intros Hin. destruct (IH _ Hin) as (l & Hl & Hr & Hle). exists l.
    replace (k - b)%nat with (S (k - S b)) by lia. auto with lia.
Qed.

(** Replacing a running goroutine by its next state keeps it in the list
    of runnable ones, or takes exactly it out. *)
Lemma running_from_insert b gs k l l' :
  gs !! k = Some l -> is_running l = true ->
  length (running_from b gs) =
  (length (running_from b (<[k := l']> gs)) + (if is_running l' then 0 else 1))%nat.
Proof.
  revert b k. induction gs as [|g gs IH]; intros b k Hk Hl; [discriminate|].
  destruct k as [|k]; simpl in *.
  - injection Hk as ->. rewrite Hl. destruct (is_running l'); simpl; lia.
  - specialize (IH (S b) k Hk Hl).
    destruct (is_running g); simpl; lia.
Qed.

Lemma list_sum_insert_lt {A : Type} (f : A -> nat) (gs : list A) k l l' :
  gs !! k = Some l -> (f l' < f l)%nat ->
  (list_sum (map f (<[k := l']> gs)) < list_sum (map f gs))%nat.
Proof.
  revert k. induction gs as [|g gs IH]; intros k Hk Hlt; [discriminate|].
  destruct k as [|k]; simpl in *.
  - injection Hk as ->. lia.
  - specialize (IH k Hk Hlt). lia.
Qed.

Lemma list_sum_map_le {A : Type} (f g : A -> nat) (gs : list A) :
  (forall x, (f x <= g x)%nat) -> (list_sum (map f gs) <= list_sum (map g gs))%nat.
Proof.
  intros H. induction gs as [|x gs IH]; simpl; [lia|]. specialize (H x). lia.
Qed.

(** One slice brings a running goroutine strictly closer to its end. *)
Lemma background_progress sys runtime l :
  bg.status l = Running ->
  let l' := fst (background (ctx_cancelled sys (bg.ctx l)) runtime l) in
  (slices_left sys l' < slices_left sys l)%nat.
Proof.
  intros Hst. cbv zeta. unfold background, slices_left at 2. rewrite Hst.
  destruct (ctx_cancelled sys (bg.ctx l)) eqn:Hc; cbn [orb].
  - pose proof (after_loop_exits runtime l) as [Hex _].
    unfold slices_left. destruct (bg.status (fst (after_loop runtime l))); [congruence|lia..].
  - destruct (Z.leb_spec 10000 (bg.iterations l)) as [Hge|Hlt].
    + pose proof (after_loop_exits runtime l) as [Hex _].
      unfold slices_left. destruct (bg.status (fst (after_loop runtime l))); [congruence|lia..].
    + destruct (bg.imu l) as [sensor|];
        [|unfold slices_left; cbn [fst bg.set_status bg.status]; lia].
      pose proof (loop_body_spec sensor l) as H. cbv zeta in H.
      destruct H as (_ & _ & _ & Hit & Hs & Hctx & _).
      unfold slices_left. rewrite Hs, Hctx, Hc, Hit. lia.
Qed.

(** The effect of a slice of a running goroutine on the whole system. *)
Lemma goroutine_step_running sys k runtime l :
  goroutines sys !! k = Some l -> bg.status l = Running ->
  let r := background (ctx_cancelled sys (bg.ctx l)) runtime l in
  goroutine_step k runtime sys =
  {| s := deferred_Done (bg.status (fst r)) (s sys);
     contexts := contexts sys;
     goroutines := <[k := fst r]> (goroutines sys);
     logger := logger sys ++ snd r |}.
Proof.
  intros Hk Hst. cbv zeta. unfold goroutine_step. rewrite Hk, Hst.
  destruct (background _ runtime l) as [l' out]. reflexivity.
Qed.

Lemma goroutine_step_idle sys k runtime :
  (forall l, goroutines sys !! k = Some l -> bg.status l <> Running) ->
  goroutine_step k runtime sys = sys.
Proof.
  intros H. unfold goroutine_step. destruct (goroutines sys !! k) as [l|]; [|reflexivity].
  specialize (H l eq_refl). destruct (bg.status l); congruence.
Qed.

Lemma slices_left_contexts sys sys' l :
  contexts sys' = contexts sys -> slices_left sys' l = slices_left sys l.
Proof. intros H. unfold slices_left, ctx_cancelled. rewrite H. reflexivity. Qed.

Lemma is_running_status l : is_running l = true <-> bg.status l = Running.
Proof. unfold is_running. destruct (bg.status l); split; congruence. Qed.

(** A slice of a running goroutine keeps the state consistent, keeps the
    component's fields other than the counter, and uses up work. *)
Lemma goroutine_step_consistent sys k runtime l :
  goroutines sys !! k = Some l -> bg.status l = Running ->
  consistent sys ->
  let sys' := goroutine_step k runtime sys in
  consistent sys' /\
  contexts sys' = contexts sys /\
  cancelFunc (s sys') = cancelFunc (s sys) /\
  imu (s sys') = imu (s sys) /\
  (work_left sys' < work_left sys)%nat.
Proof.
  intros Hk Hst (Hwg & Hc & Hlen' & Hpos). cbv zeta.
  rewrite (goroutine_step_running sys k runtime l Hk Hst). cbv zeta.
  assert (0 <= bg.iterations (fst (background (ctx_cancelled sys (bg.ctx l)) runtime l)))%Z
    as Hpos'.
  { pose proof (proj1 (Forall_lookup _ _) Hpos k l Hk) as H0. cbv beta in H0.
    unfold background.
    destruct (ctx_cancelled sys (bg.ctx l) || (10000 <=? bg.iterations l)%Z).
    - pose proof (after_loop_exits runtime l) as [_ ->]. exact H0.
    - destruct (bg.imu l) as [sensor|]; [|exact H0].
      pose proof (loop_body_spec sensor l) as H. cbv zeta in H.
      destruct H as (_ & _ & _ & Hit & _). rewrite Hit. lia. }
  pose proof (background_progress sys runtime l Hst) as Hprog. cbv zeta in Hprog.
  set (r := background (ctx_cancelled sys (bg.ctx l)) runtime l) in *.
  pose proof (running_from_insert 0 (goroutines sys) k l (fst r) Hk
                (proj2 (is_running_status l) Hst)) as Hlen.
  assert (deferred_Done (bg.status (fst r)) (s sys) =
          {| imu := imu (s sys); cancelFunc := cancelFunc (s sys);
             wg := (wg (s sys) - (if is_running (fst r) then 0 else 1))%Z |}) as HD.
  { unfold deferred_Done, is_running. destruct (s sys) as [i cf w].
    destruct (bg.status (fst r)); simpl; f_equal; lia. }
  rewrite HD. unfold consistent, runnable, work_left. cbn [s contexts goroutines wg cancelFunc imu].
  repeat apply conj; try reflexivity.
  - unfold runnable in Hwg. rewrite Hwg, Hlen.
    destruct (is_running (fst r)); lia.
  - exact Hc.
  - rewrite length_insert. exact Hlen'.
  - apply Forall_insert; assumption.
  - erewrite map_ext; [|intros g; apply slices_left_contexts; reflexivity].
    erewrite (map_ext (slices_left _)); [apply (list_sum_insert_lt _ _ k l (fst r) Hk Hprog)|].
    intros g. apply slices_left_contexts. reflexivity.
Qed.

(** With a sensor that returns an orientation, a slice never panics. *)
Lemma background_no_panic cancelled runtime l :
  returns_orientation l ->
  let l' := fst (background cancelled runtime l) in
  bg.status l' <> Panicked /\ returns_orientation l'.
Proof.
  unfold returns_orientation. intros Hro. cbv zeta.
  destruct (bg.imu l) as [sensor|] eqn:Himu; [|contradiction].
  unfold background.
  destruct (cancelled || (10000 <=? bg.iterations l)%Z).
  - unfold after_loop, final_orientation. rewrite Himu.
    pose proof (Hro (bg.iterations l)) as H0.
    destruct (Orientation sensor (bg.iterations l)) as [[angles|] err];
      [|simpl in H0; congruence].
    cbn [fst bg.set_status bg.status bg.imu]. rewrite Himu.
    split; [discriminate | exact Hro].
  - pose proof (loop_body_spec sensor l) as H. cbv zeta in H.
    destruct H as (_ & _ & _ & _ & Hst & _ & Himu').
    rewrite Himu, Hst, Himu', Himu. split; [discriminate | exact Hro].
Qed.

(** Every reachable state is consistent. *)
Lemma reachable_consistent sys : reachable sys -> consistent sys.
Proof.
  induction 1 as [|sys sensor _ IH|sys _ IH Himu|sys _ IH|sys k runtime _ IH].
  - repeat apply conj; [reflexivity | discriminate | reflexivity | constructor].
  - exact IH.
  - destruct IH as (Hwg & Hc & Hlen & Hpos).
    unfold consistent, startBackground, runnable in *.
    cbn [fst s contexts goroutines wg cancelFunc].
    rewrite running_from_app, !length_app. cbn. repeat apply conj; [lia | | lia |].
    + intros c [= <-]. lia.
    + apply Forall_app. split; [exact Hpos|]. repeat constructor. simpl. lia.
  - destruct IH as (Hwg & Hc & Hlen & Hpos). unfold Close_cancel, log. cbn [s cancelFunc].
    destruct (cancelFunc (s sys)) as [c|] eqn:Hcf.
    + unfold consistent, cancel. cbn [s contexts goroutines].
      rewrite length_insert. repeat apply conj; auto.
      intros c' Hc'. apply Hc. congruence.
    + repeat apply conj; auto. cbn [s]. congruence.
  - destruct (goroutines sys !! k) as [l|] eqn:Hk.
    + destruct (bg.status l) eqn:Hst.
      * apply (goroutine_step_consistent sys k runtime l Hk Hst IH).
      * rewrite goroutine_step_idle; [exact IH|]. intros l' Hl'. congruence.
      * rewrite goroutine_step_idle; [exact IH|]. intros l' Hl'. congruence.
    + rewrite goroutine_step_idle; [exact IH|]. intros l' Hl'. congruence.
Qed.

Lemma crashed_no_panic sys : crashed sys = false <-> no_panic sys.
Proof.
  unfold crashed, no_panic, is_panicked.
  induction (goroutines sys) as [|l gs IH]; simpl.
  - split; [constructor | reflexivity].
  - rewrite orb_false_iff, IH, Forall_cons. destruct (bg.status l); intuition congruence.
Qed.

Lemma goroutine_step_no_panic sys k runtime :
  Forall returns_orientation (goroutines sys) -> no_panic sys ->
  Forall returns_orientation (goroutines (goroutine_step k runtime sys)) /\
  no_panic (goroutine_step k runtime sys).
Proof.
  intros Hro Hnp. unfold no_panic in *.
  destruct (goroutines sys !! k) as [l|] eqn:Hk.
  - destruct (bg.status l) eqn:Hst;
      try (rewrite goroutine_step_idle; [auto | intros l' Hl'; congruence]).
    rewrite (goroutine_step_running sys k runtime l Hk Hst). cbv zeta.
    cbn [goroutines].
    pose proof (proj1 (Forall_lookup _ _) Hro k l Hk) as Hl.
    destruct (background_no_panic (ctx_cancelled sys (bg.ctx l)) runtime l Hl) as [H1 H2].
    split; apply Forall_insert; assumption.
  - rewrite goroutine_step_idle; [auto | intros l' Hl'; congruence].
Qed.

(** [Wait] returns in a live process whose sensors return an orientation:
    whatever the scheduler does, [work_left] turns bring the counter to
    zero, with every goroutine out of its function and none panicked. *)
Lemma Wait_returns fuel : forall sched sys,
  consistent sys ->
  Forall returns_orientation (goroutines sys) -> no_panic sys ->
  (work_left sys <= fuel)%nat ->
  exists sys',
    Wait fuel sched sys = Some sys' /\
    consistent sys' /\ wg (s sys') = 0%Z /\
    contexts sys' = contexts sys /\
    cancelFunc (s sys') = cancelFunc (s sys) /\
    imu (s sys') = imu (s sys) /\
    no_panic sys'.
Proof.
  induction fuel as [|fuel IH]; intros sched sys Hcons Hro Hnp Hfuel.
  - cbn [Wait]. rewrite (proj2 (crashed_no_panic sys) Hnp).
    destruct (Z.eqb_spec (wg (s sys)) 0) as [Hz|Hnz].
    + exists sys. split; [reflexivity|]. split; [exact Hcons|]. repeat apply conj; auto.
    + exfalso. pose proof Hcons as [Hwg _]. unfold runnable in Hwg.
      destruct (running_from 0 (goroutines sys)) as [|r rs] eqn:Hr; [simpl in Hwg; lia|].
      destruct (running_from_In 0 (goroutines sys) r) as (l & Hl & Hrun & _);
        [rewrite Hr; left; reflexivity|].
      rewrite Nat.sub_0_r in Hl. apply is_running_status in Hrun.
      pose proof (goroutine_step_consistent sys r 0 l Hl Hrun Hcons)
        as (_ & _ & _ & _ & Hlt).
      lia.
  - cbn [Wait]. rewrite (proj2 (crashed_no_panic sys) Hnp).
    destruct (Z.eqb_spec (wg (s sys)) 0) as [Hz|Hnz].
    + exists sys. split; [reflexivity|]. split; [exact Hcons|]. repeat apply conj; auto.
    + pose proof Hcons as [Hwg _]. unfold runnable in *.
      destruct (running_from 0 (goroutines sys)) as [|r rs] eqn:Hr; [simpl in Hwg; lia|].
      destruct (sched O) as [choice runtime].
      set (k := nth (choice mod length (r :: rs)) (r :: rs) r).
      assert (In k (r :: rs)) as Hin.
      { apply nth_In. apply Nat.mod_upper_bound. discriminate. }
      rewrite <- Hr in Hin.
      destruct (running_from_In 0 (goroutines sys) k Hin) as (l & Hl & Hrun & _).
      rewrite Nat.sub_0_r in Hl. apply is_running_status in Hrun.
      pose proof (goroutine_step_consistent sys k runtime l Hl Hrun Hcons)
        as (Hcons' & Hctx & Hcf & Himu & Hlt).
      destruct (goroutine_step_no_panic sys k runtime Hro Hnp) as [Hro' Hnp'].
      destruct (IH (fun t => sched (S t)) (goroutine_step k runtime sys) Hcons' Hro' Hnp')
        as (sys' & HW & Hc' & Hwg' & Hctx' & Hcf' & Himu' & Hnp''); [lia|].
      exists sys'. split; [exact HW|]. split; [exact Hc'|].
      repeat apply conj; auto; congruence.
Qed.

(** Cancelling never adds work. *)
Lemma Close_cancel_work sys : (work_left (Close_cancel sys) <= work_left sys)%nat.
Proof.
  unfold Close_cancel, work_left, log. cbn [s cancelFunc].
  destruct (cancelFunc (s sys)) as [c|]; cbn [goroutines]; [|].
  - apply list_sum_map_le. intros l. unfold slices_left, ctx_cancelled, cancel.
    cbn [contexts]. destruct (bg.status l); try lia.
    destruct (decide (bg.ctx l = c)) as [->|Hne].
    + destruct (contexts sys !! c) as [b|] eqn:Hb.
      * rewrite list_lookup_insert_eq by (eapply lookup_lt_Some; eauto).
        destruct b; lia.
      * rewrite list_insert_ge by (apply lookup_ge_None; exact Hb).
        rewrite Hb. lia.
    + rewrite list_lookup_insert_ne by congruence. lia.
  - apply list_sum_map_le. intros l. unfold slices_left, ctx_cancelled. cbn [contexts]. lia.
Qed.

Lemma reachable_Reconfigure deps conf sys :
  reachable sys -> reachable (fst (Reconfigure deps conf sys)).
Proof.
  intros H. unfold Reconfigure.
  destruct (resource.NativeConfig conf) as [newConf|e1]; [|exact H].
  destruct (FromDependencies deps (IMU newConf)) as [sensor|e2]; [|exact H].
  apply reach_startBackground; [apply reach_set_imu, H | discriminate].
Qed.

Lemma reachable_Wait fuel : forall sched sys sys',
  reachable sys -> Wait fuel sched sys = Some sys' -> reachable sys'.
Proof.
  induction fuel as [|fuel IH]; intros sched sys sys' Hr; cbn [Wait];
    destruct (crashed sys); try discriminate;
    destruct (wg (s sys) =? 0)%Z; try congruence.
  destruct (runnable sys) as [|r rs]; [discriminate|].
  destruct (sched O) as [choice runtime].
  apply IH. apply reach_goroutine, Hr.
Qed.

(** [Wait] only ever returns in a live process. *)
Lemma Wait_alive fuel : forall sched sys sys',
  Wait fuel sched sys = Some sys' -> no_panic sys'.
Proof.
  induction fuel as [|fuel IH]; intros sched sys sys'; cbn [Wait];
    destruct (crashed sys) eqn:Hc; try discriminate;
    destruct (wg (s sys) =? 0)%Z; try discriminate;
    try (intros [= <-]; apply crashed_no_panic, Hc).
  destruct (runnable sys) as [|r rs]; [discriminate|].
  destruct (sched O) as [choice runtime]. apply IH.
Qed.

(** Once a goroutine has panicked, [Wait] does not return. *)
Lemma Wait_crashed fuel sched sys : crashed sys = true -> Wait fuel sched sys = None.
Proof. intros H. destruct fuel; cbn [Wait]; rewrite H; reflexivity. Qed.

(** A goroutine never needs more than 10001 slices. *)
Lemma work_left_bound sys :
  consistent sys ->
  (Z.of_nat (work_left sys) <= 10001 * Z.of_nat (length (goroutines sys)))%Z.
Proof.
  intros (_ & _ & _ & Hpos). unfold work_left.
  induction Hpos as [|l gs Hl _ IH]; [simpl; lia|].
  cbn [map list_sum length].
  assert (Z.of_nat (slices_left sys l) <= 10001)%Z.
  { unfold slices_left. destruct (bg.status l); try lia.
    destruct (ctx_cancelled sys (bg.ctx l)); lia. }
  unfold list_sum in *. cbn [fold_right]. lia.
Qed.

(** Cancelling a context that is already cancelled changes nothing. *)
Lemma cancel_again c sys : ctx_cancelled sys c = true -> cancel c sys = sys.
Proof.
  unfold ctx_cancelled, cancel. intros H.
  destruct (contexts sys !! c) as [b|] eqn:Hb; [|discriminate]. subst b.
  rewrite list_insert_id by exact Hb. destruct sys; reflexivity.
Qed.

Lemma Wait_counter_zero fuel sched sys :
  crashed sys = false -> wg (s sys) = 0%Z -> Wait fuel sched sys = Some sys.
Proof. intros Hc H. destruct fuel; cbn [Wait]; rewrite Hc, H; reflexivity. Qed.

(** [Close] on a component with no goroutine and no cancel function. *)
Lemma Close_fresh fuel sched :
  Close fuel sched fresh = Some (log (Info "SMURF CLOSING STUMBLER") fresh, None).
Proof. unfold Close, Close_cancel. cbn. rewrite Wait_counter_zero; reflexivity. Qed.

Lemma Close_cancel_goroutines sys : goroutines (Close_cancel sys) = goroutines sys.
Proof.
  unfold Close_cancel, log. cbn [s cancelFunc]. destruct (cancelFunc (s sys)); reflexivity.
Qed.

(** X13. [Close] returns, and returns nil, as long as no goroutine
    panics.  On a reachable component of a live process, all of whose
    sensors hand back an orientation: the only result [Close] ever gives
    is nil; given 10001 turns of the scheduler for each goroutine it does
    return, with the wait-group counter at zero, no goroutine left
    running, none panicked and the stored context cancelled; a second
    [Close] then only logs its line; and a component whose construction
    failed closes at once. *)
Theorem Close_returns_while_no_goroutine_panics (sys : System) :
  reachable sys -> no_panic sys -> Forall returns_orientation (goroutines sys) ->
  (forall fuel sched r, Close fuel sched sys = Some r -> snd r = None) /\
  (forall fuel sched,
     (10001 * Z.of_nat (length (goroutines sys)) <= Z.of_nat fuel)%Z ->
     exists sys',
       Close fuel sched sys = Some (sys', None) /\
       wg (s sys') = 0%Z /\ runnable sys' = [] /\
       (forall c, cancelFunc (s sys) = Some c -> ctx_cancelled sys' c = true) /\
       no_panic sys' /\
       (forall fuel2 sched2,
          Close fuel2 sched2 sys' =
          Some (log (Info "SMURF CLOSING STUMBLER") sys', None))) /\
  (forall deps conf e fuel sched,
     snd (newStumbler deps conf) = Some e ->
     Close fuel sched (fst (newStumbler deps conf)) =
     Some (log (Info "SMURF CLOSING STUMBLER") fresh, None)).
Proof.
  intros Hreach Hnp Hro. split; [|split].
  - intros fuel sched r. unfold Close.
    destruct (Wait fuel sched (Close_cancel sys)); [|discriminate].
    intros [= <-]. reflexivity.
  - intros fuel sched Hfuel.
    pose proof (reachable_consistent _ (reach_Close_cancel _ Hreach)) as Hcons.
    pose proof (work_left_bound _ (reachable_consistent _ Hreach)) as Hb.
    pose proof (Close_cancel_work sys) as Hle.
    assert (Forall returns_orientation (goroutines (Close_cancel sys))) as Hro1
      by (rewrite Close_cancel_goroutines; exact Hro).
    assert (no_panic (Close_cancel sys)) as Hnp1
      by (unfold no_panic; rewrite Close_cancel_goroutines; exact Hnp).
    destruct (Wait_returns fuel sched (Close_cancel sys) Hcons Hro1 Hnp1)
      as (sys' & HW & Hcons' & Hwg & Hctx & Hcf & _ & Hnp'); [lia|].
    assert (cancelFunc (s (Close_cancel sys)) = cancelFunc (s sys)) as Hcf0.
    { unfold Close_cancel, log. cbn [s cancelFunc].
      destruct (cancelFunc (s sys)) eqn:E; cbn [cancel s cancelFunc]; congruence. }
    assert (forall c, cancelFunc (s sys) = Some c -> ctx_cancelled sys' c = true) as Hcan.
    { intros c Hc. unfold ctx_cancelled. rewrite Hctx.
      unfold Close_cancel, log. cbn [s cancelFunc]. rewrite Hc.
      unfold cancel. cbn [contexts].
      destruct (reachable_consistent _ Hreach) as (_ & Hlt & _).
      rewrite list_lookup_insert_eq by (apply Hlt, Hc). reflexivity. }
    exists sys'. unfold Close. rewrite HW. repeat apply conj.
    + reflexivity.
    + exact Hwg.
    + destruct Hcons' as (Hn & _). rewrite Hwg in Hn.
      destruct (runnable sys'); [reflexivity | simpl in Hn; lia].
    + exact Hcan.
    + exact Hnp'.
    + intros fuel2 sched2. unfold Close_cancel.
      set (logged := log (Info "SMURF CLOSING STUMBLER") sys').
      assert (crashed logged = false) as Hlive by (apply crashed_no_panic; exact Hnp').
      assert (cancelFunc (s logged) = cancelFunc (s sys)) as -> by (cbn; congruence).
      destruct (cancelFunc (s sys)) as [c|].
      * rewrite cancel_again by (apply (Hcan c eq_refl)).
        rewrite Wait_counter_zero by (exact Hlive || exact Hwg). reflexivity.
      * rewrite Wait_counter_zero by (exact Hlive || exact Hwg). reflexivity.
  - intros deps conf e fuel sched He. unfold newStumbler in *.
    rewrite (Reconfigure_error _ _ _ _ He). apply Close_fresh.
Qed.

Lemma Close_returns_while_no_goroutine_panics_witness :
  exists sys',
    Close (Z.to_nat 10001) sched0 (fst (newStumbler (deps_of steady) conf0)) =
      Some (sys', None) /\
    wg (s sys') = 0%Z /\ runnable sys' = [] /\
    ctx_cancelled sys' 0 = true /\ no_panic sys'.
Proof.
  assert (reachable (fst (newStumbler (deps_of steady) conf0))) as Hr
    by exact (reachable_Reconfigure (deps_of steady) conf0 fresh reach_fresh).
  assert (no_panic (fst (newStumbler (deps_of steady) conf0))) as Hnp
    by (apply crashed_no_panic; reflexivity).
  assert (Forall returns_orientation (goroutines (fst (newStumbler (deps_of steady) conf0))))
    as Hro by (repeat constructor; intros i; discriminate).
  assert (10001 * Z.of_nat (length (goroutines (fst (newStumbler (deps_of steady) conf0))))
          <= Z.of_nat (Z.to_nat 10001))%Z as Hfuel
    by (change (length (goroutines (fst (newStumbler (deps_of steady) conf0)))) with 1%nat;
        lia).
  destruct (proj1 (proj2 (Close_returns_while_no_goroutine_panics _ Hr Hnp Hro))
              (Z.to_nat 10001) sched0 Hfuel)
    as (sys' & HC & Hwg & Hrun & Hcan & Hnp' & _).
  exists sys'. repeat apply conj; try assumption.
  apply Hcan. reflexivity.
Defined.

(** C7 (the code departs from the claim). [Close] on a live component
    whose sensor fails its orientation read with a nil orientation: the
    goroutine, cancelled, leaves its loop, logs the error and panics on
    [pose.EulerAngles()]; the process ends there and [Close] never
    returns, whatever the scheduler does and however long it runs. *)
Theorem Close_never_returns_when_the_worker_panics (fuel : nat) (sched : nat -> nat * int) :
  let sys := fst (newStumbler (deps_of dead) conf0) in
  snd (newStumbler (deps_of dead) conf0) = None /\
  no_panic sys /\ runnable sys = [0%nat] /\
  (forall runtime,
     map bg.status (goroutines (goroutine_step 0 runtime (Close_cancel sys))) = [Panicked]) /\
  Close fuel sched sys = None.
Proof.
  cbv zeta. split; [reflexivity|]. split; [|split; [reflexivity|split]].
  - apply crashed_no_panic. reflexivity.
  - intros runtime. reflexivity.
  - unfold Close.
    set (sys1 := Close_cancel (fst (newStumbler (deps_of dead) conf0))).
    assert (Wait fuel sched sys1 = None) as ->; [|reflexivity].
    destruct fuel as [|fuel]; [reflexivity|].
    cbn [Wait].
    change (crashed sys1) with false. change (wg (s sys1) =? 0)%Z with false.
    change (runnable sys1) with [0%nat]. cbn iota.
    destruct (sched O) as [choice runtime].
    cbn [length]. rewrite Nat.mod_1_r. cbn [nth].
    apply Wait_crashed. reflexivity.
Qed.

(** A component closed right after its construction: the goroutine sees
    the cancellation at its first test and logs a run of no iteration. *)
Example Close_after_newStumbler :
  exists sys',
    Close 1 sched0 (fst (newStumbler (deps_of steady) conf0)) = Some (sys', None) /\
    map bg.iterations (goroutines sys') = [0%Z] /\
    map bg.status (goroutines sys') = [Returned] /\
    contexts sys' = [true] /\
    logger sys' =
      [Info "SMURF CLOSING STUMBLER";
       Infow_RunFinished 2000000000 0 0%float;
       Infow_Averages 0 0 0 0 0 0;
       Infow_Orientation 0 0 0].
Proof. eexists. split; [vm_compute; reflexivity|]. vm_compute. repeat split. Qed.

(** [Reconfigure] cancels no context and lets no goroutine run: it only
    appends, at most, one context and one goroutine. *)
Lemma Reconfigure_cancels_nothing deps conf sys :
  exists new_ctx new_go,
    contexts (fst (Reconfigure deps conf sys)) = contexts sys ++ new_ctx /\
    goroutines (fst (Reconfigure deps conf sys)) = goroutines sys ++ new_go /\
    Forall (fun b => b = false) new_ctx /\
    logger (fst (Reconfigure deps conf sys)) = logger sys.
Proof.
  unfold Reconfigure.
  destruct (resource.NativeConfig conf) as [newConf|e1];
    [|exists [], []; rewrite !app_nil_r; repeat apply conj; auto].
  destruct (FromDependencies deps (IMU newConf)) as [sensor|e2];
    [|exists [], []; rewrite !app_nil_r; repeat apply conj; auto].
  unfold startBackground, set_imu. cbn [fst contexts goroutines logger s imu].
  eexists [false], [_]. repeat apply conj; eauto.
Qed.

(** In general: a successful [Reconfigure] leaves every goroutine as it
    was, running ones included, with its context as it was, and adds a
    running goroutine of its own. *)
Lemma Reconfigure_overlap deps conf sys k l :
  goroutines sys !! k = Some l ->
  snd (Reconfigure deps conf sys) = None ->
  let sys' := fst (Reconfigure deps conf sys) in
  goroutines sys' !! k = Some l /\
  ctx_cancelled sys' (bg.ctx l) = ctx_cancelled sys (bg.ctx l) /\
  (exists l', goroutines sys' !! length (goroutines sys) = Some l' /\
              bg.status l' = Running) /\
  wg (s sys') = (wg (s sys) + 1)%Z.
Proof.
  intros Hk. unfold Reconfigure.
  destruct (resource.NativeConfig conf) as [newConf|e1]; [|discriminate].
  destruct (FromDependencies deps (IMU newConf)) as [sensor|e2]; [|discriminate].
  intros _. cbv zeta. unfold startBackground, set_imu, ctx_cancelled.
  cbn [fst s contexts goroutines wg].
  repeat apply conj.
  - rewrite lookup_app_l by (eapply lookup_lt_Some; eauto). exact Hk.
  - destruct (contexts sys !! bg.ctx l) as [b|] eqn:Hb.
    + rewrite lookup_app_l by (eapply lookup_lt_Some; eauto). rewrite Hb. reflexivity.
    + apply lookup_ge_None in Hb.
      destruct (decide (bg.ctx l = length (contexts sys))) as [->|Hne].
      * rewrite list_lookup_middle by reflexivity. reflexivity.
      * rewrite lookup_ge_None_2; [reflexivity|]. rewrite length_app. simpl. lia.
  - eexists. split; [apply list_lookup_middle; reflexivity | reflexivity].
  - reflexivity.
Qed.

(** C2 (the code departs from the claim). A second [Reconfigure] on a
    live component: the goroutine of the first is neither cancelled nor
    joined.  Both goroutines are runnable afterwards, neither context is
    cancelled, the counter stands at 2, and the only cancel function kept
    is that of the second context. *)
Theorem Reconfigure_leaves_previous_goroutine_running :
  let sys1 := fst (newStumbler (deps_of steady) conf0) in
  let sys2 := fst (Reconfigure (deps_of steady) conf0 sys1) in
  snd (Reconfigure (deps_of steady) conf0 sys1) = None /\
  runnable sys1 = [0%nat] /\
  runnable sys2 = [0%nat; 1%nat] /\
  ctx_cancelled sys2 0 = false /\ ctx_cancelled sys2 1 = false /\
  cancelFunc (s sys2) = Some 1%nat /\
  wg (s sys2) = 2%Z.
Proof. cbv zeta. repeat apply conj; vm_compute; reflexivity. Qed.

(** What follows from it: [Close] after the second [Reconfigure] cancels
    the second context only.  The first goroutine is still runnable under
    a live context, so the wait lasts until it has used up its budget
    (see [run_to_budget]). *)
Example Close_cancels_latest_context_only :
  let sys1 := fst (newStumbler (deps_of steady) conf0) in
  let sys2 := fst (Reconfigure (deps_of steady) conf0 sys1) in
  contexts (Close_cancel sys2) = [false; true] /\
  runnable (Close_cancel sys2) = [0%nat; 1%nat] /\
  Z.of_nat (work_left (Close_cancel sys2)) = 10002%Z.
Proof. cbv zeta. repeat apply conj; vm_compute; reflexivity. Qed.

End Lifecycle.

(** ** A run to the iteration budget *)

Section Budget.
Import movingaverage.

Lemma lastn_Forall {A : Type} (P : A -> Prop) n (l : list A) :
  Forall P l -> Forall P (lastn n l).
Proof. unfold lastn. apply Forall_drop. Qed.

Lemma readings_zero read axis from n :
  (forall i, axis (fst (read i)) = 0%float) ->
  Forall (fun x => x = 0%float) (readings read axis from n).
Proof.
  intros H. unfold readings. apply Forall_map, Forall_forall. intros i _. apply H.
Qed.

Lemma fsum_zero (values : list float) :
  Forall (fun x => x = 0%float) values -> fsum values = 0%float.
Proof.
  induction values as [|v values IH] using rev_ind; intros H; [reflexivity|].
  apply Forall_app in H. destruct H as [H Hv]. apply Forall_inv in Hv.
  rewrite fsum_snoc, IH, Hv by exact H. reflexivity.
Qed.

(** The running sum of a window fed only zeros is 0 after every [Add]:
    no rounding moves it. *)
Lemma feed_zero_sum (values : list float) :
  Forall (fun x => x = 0%float) values ->
  runningSum (feed values (New 50)) = 0%float.
Proof.
  induction values as [|v values IH] using rev_ind; intros H; [reflexivity|].
  apply Forall_app in H. destruct H as [H Hv]. apply Forall_inv in Hv.
  destruct (Nat.le_gt_cases 50 (length values)) as [Hfull|Hshort].
  - rewrite feed_runningSum_full by lia. rewrite IH, Hv by exact H.
    pose proof (lastn_Forall _ 50 values H) as Hl.
    destruct (lastn 50 values) as [|oldest rest]; [reflexivity|].
    apply Forall_inv in Hl. cbn [hd]. rewrite Hl. reflexivity.
  - rewrite feed_runningSum_short by (rewrite length_app; simpl; lia).
    apply fsum_zero, Forall_app. split; [exact H | constructor; [exact Hv | constructor]].
Qed.

Lemma zero_quotient (k : nat) :
  (1 <= k <= 50)%nat -> (0 / float64_of_int (Z.of_nat k))%float = 0%float.
Proof.
  intros H. destruct k as [|k]; [lia|].
  do 50 (destruct k as [|k]; [reflexivity|]). lia.
Qed.

(** A window fed only zeros still averages to 0. *)
Lemma Avg_feed_zero read axis from n :
  (forall i, axis (fst (read i)) = 0%float) ->
  Avg (feed (readings read axis from n) (New 50)) = 0%float.
Proof.
  intros H. pose proof (readings_zero read axis from n H) as Hz.
  unfold Avg. destruct (feed_New 50 (readings read axis from n)) as [_ Hb]; [lia|].
  rewrite feed_zero_sum by exact Hz.
  assert (length (buffer (feed (readings read axis from n) (New 50))) <= 50)%nat as Hlen
    by (rewrite Hb, lastn_length; lia).
  destruct (buffer (feed (readings read axis from n) (New 50))) as [|x rest];
    [reflexivity|].
  apply zero_quotient. cbn [length] in *. lia.
Qed.

Lemma passes_log_failing sensor n l :
  always_fails sensor -> length (snd (passes n sensor l)) = (2 * n)%nat.
Proof.
  intros Hf. revert l. induction n as [|n IH]; intros l; [reflexivity|].
  cbn [passes].
  pose proof (loop_body_spec sensor l) as H. cbv zeta in H.
  destruct H as (Hlog & _).
  destruct (loop_body sensor l) as [l1 out1]. cbn [snd] in Hlog.
  specialize (IH l1). destruct (passes n sensor l1) as [l2 out2]. cbn [snd] in *.
  rewrite length_app, IH, Hlog, length_app.
  destruct (Hf (bg.iterations l)) as (Ha & Hg & _).
  destruct (snd (LinearAcceleration sensor (bg.iterations l))); [|congruence].
  destruct (snd (AngularVelocity sensor (bg.iterations l))); [|congruence].
  simpl. lia.
Qed.

(** The goroutine that has left its loop with an orientation in hand has
    returned. *)
Lemma after_loop_returns sensor runtime l :
  bg.imu l = Some sensor -> fst (Orientation sensor (bg.iterations l)) <> None ->
  bg.status (fst (after_loop runtime l)) = Returned.
Proof.
  intros Himu Ho. unfold after_loop, final_orientation. rewrite Himu.
  destruct (Orientation sensor (bg.iterations l)) as [[angles|] err];
    [reflexivity | exfalso; apply Ho; reflexivity].
Qed.

(** The same run under the scheduler: a component with one goroutine
    whose context stays live and whose sensor hands back an orientation.
    [Wait] returns after the goroutine has made its remaining passes and
    left the loop. *)
Lemma Wait_lone sensor c fuel : forall sched k sys,
  fst (Orientation sensor 10000%Z) <> None ->
  goroutines sys = [fst (passes k sensor (bg.start c (Some sensor)))] ->
  ctx_cancelled sys c = false ->
  wg (s sys) = 1%Z ->
  (Z.of_nat k <= 10000)%Z -> (10001 <= Z.of_nat k + Z.of_nat fuel)%Z ->
  exists sys',
    Wait fuel sched sys = Some sys' /\
    wg (s sys') = 0%Z /\ contexts sys' = contexts sys /\
    goroutines sys' =
      [fst (after_loop 0 (fst (passes (Z.to_nat 10000) sensor (bg.start c (Some sensor)))))].
Proof.
  induction fuel as [|fuel IH]; intros sched k sys Ho Hgo Hctx Hwg Hk Hfuel; [lia|].
  pose proof (passes_spec sensor k (bg.start c (Some sensor))) as P. cbv zeta in P.
  destruct P as (Pit & _ & _ & _ & _ & _ & _ & Pctx & Pimu & Pst).
  specialize (Pst eq_refl). cbn [bg.start bg.iterations bg.ctx bg.imu] in Pit, Pctx, Pimu.
  set (l := fst (passes k sensor (bg.start c (Some sensor)))) in *.
  cbn [Wait].
  assert (crashed sys = false) as ->
    by (unfold crashed, is_panicked; rewrite Hgo; cbn [existsb]; rewrite Pst; reflexivity).
  rewrite Hwg. cbn [Z.eqb].
  unfold runnable. rewrite Hgo. cbn [running_from].
  rewrite (proj2 (is_running_status l) Pst).
  destruct (sched O) as [choice runtime].
  replace (nth (choice mod length [O]) [O] O) with O
    by (cbn [length]; rewrite Nat.mod_1_r; reflexivity).
  assert (goroutines sys !! O = Some l) as Hl by (rewrite Hgo; reflexivity).
  rewrite (goroutine_step_running sys O runtime l Hl Pst). cbv zeta.
  rewrite Pctx, Hctx. unfold background. cbn [orb]. rewrite Hgo. cbn [insert list_insert].
  destruct (Z.leb_spec 10000 (bg.iterations l)) as [Hge|Hlt].
  - assert (k = Z.to_nat 10000) as -> by lia.
    pose proof (after_loop_exits runtime l) as [Hex _].
    assert (bg.status (fst (after_loop runtime l)) = Returned) as Hret.
    { apply (after_loop_returns sensor); [exact Pimu|].
      replace (bg.iterations l) with 10000%Z by lia. exact Ho. }
    eexists. split; [apply Wait_counter_zero|].
    + unfold crashed, is_panicked. cbn [goroutines existsb]. rewrite Hret. reflexivity.
    + cbn [s]. rewrite deferred_Done_exit by exact Hex. lia.
    + cbn [s contexts goroutines]. rewrite deferred_Done_exit by exact Hex.
      repeat apply conj; [lia | reflexivity |].
      f_equal. apply after_loop_fst_runtime.
  - rewrite Pimu.
    pose proof (loop_body_spec sensor l) as B. cbv zeta in B.
    destruct B as (_ & _ & _ & _ & Bst & _).
    rewrite Bst. cbn [deferred_Done].
    match goal with
    | |- context [Wait fuel ?f ?x] =>
        destruct (IH f (S k) x) as (sys' & HW & Hwg' & Hctx' & Hgo');
          [ exact Ho
          | cbn [goroutines]; rewrite passes_snoc; reflexivity
          | exact Hctx | exact Hwg | lia | lia | ]
    end.
    exists sys'. split; [exact HW|]. split; [exact Hwg'|]. split; [exact Hctx'|exact Hgo'].
Qed.

(** The claim C4 as the specification words it fails: every read of
    [stale] fails, yet after the run the X average stands at 1, not at the
    initial 0. *)
Lemma always_failing_sensor_moves_averages :
  let l := fst (run (S (Z.to_nat 10000)) (fun _ => false) 0 (bg.start 0 (Some stale))) in
  always_fails stale /\
  bg.iterations l = 10000%Z /\
  Avg (bg.X (bg.start 0 (Some stale))) = 0%float /\
  Avg (bg.X l) = 1%float.
Proof.
  cbv zeta. split; [|split; [|split]].
  - intros i. repeat split; simpl; discriminate.
  - vm_compute. reflexivity.
  - vm_compute. reflexivity.
  - vm_compute. reflexivity.
Qed.

(** C4 (amended). A goroutine whose sensor fails every read and whose
    context is never cancelled is still in its loop after 10000 slices
    and leaves it at the next one, after exactly 10000 iterations; the
    deferred [wg.Done()] then signals completion.  When the failing
    orientation read still hands back an orientation the goroutine
    returns, and a [Wait] on the component returns with the counter at
    zero.  Every pass logged its two errors and fed the six returned
    components to the averages, so each window holds the last 50 values
    returned with the errors; every average is still 0 when those reads
    return zero vectors. *)
Theorem always_failing_sensor_run (sensor : MovementSensor) (runtime : int) :
  always_fails sensor ->
  let sys0 := fst (startBackground (set_imu sensor fresh)) in
  let l0 := bg.start 0 (Some sensor) in
  let l := fst (run (S (Z.to_nat 10000)) (fun _ => false) runtime l0) in
  let accel := readings (LinearAcceleration sensor) in
  let gyro := readings (AngularVelocity sensor) in
  let N := Z.to_nat 10000 in
  (bg.status (fst (run N (fun _ => false) runtime l0)) = Running /\
   bg.iterations l = 10000%Z /\
   bg.status l <> Running /\
   forall comp, wg (deferred_Done (bg.status l) comp) = (wg comp - 1)%Z) /\
  (goroutines sys0 = [l0] /\
   (fst (Orientation sensor 10000%Z) <> None ->
    bg.status l = Returned /\
    forall sched, exists sys',
      Wait (S N) sched sys0 = Some sys' /\
      wg (s sys') = 0%Z /\ contexts sys' = [false] /\ goroutines sys' = [l])) /\
  length (snd (passes N sensor l0)) = (2 * N)%nat /\
  (buffer (bg.X l) = lastn 50 (accel r3.X 0%Z N) /\
   buffer (bg.Y l) = lastn 50 (accel r3.Y 0%Z N) /\
   buffer (bg.Z l) = lastn 50 (accel r3.Z 0%Z N) /\
   buffer (bg.RX l) = lastn 50 (gyro r3.X 0%Z N) /\
   buffer (bg.RY l) = lastn 50 (gyro r3.Y 0%Z N) /\
   buffer (bg.RZ l) = lastn 50 (gyro r3.Z 0%Z N)) /\
  ((forall i, fst (LinearAcceleration sensor i) = zero_vector /\
              fst (AngularVelocity sensor i) = zero_vector) ->
   Avg (bg.X l) = 0%float /\ Avg (bg.Y l) = 0%float /\ Avg (bg.Z l) = 0%float /\
   Avg (bg.RX l) = 0%float /\ Avg (bg.RY l) = 0%float /\ Avg (bg.RZ l) = 0%float).
Proof.
  intros Hf sys0 l0 l accel gyro N.
  assert (Z.of_nat N = 10000%Z) as HN by (subst N; apply Z2Nat.id; lia).
  assert (fst (Orientation sensor 10000%Z) <> None ->
          forall sched, exists sys',
            Wait (S N) sched sys0 = Some sys' /\
            wg (s sys') = 0%Z /\ contexts sys' = [false] /\
            goroutines sys' = [fst (after_loop runtime (fst (passes N sensor l0)))]) as HWait.
  { intros Ho sched.
    destruct (Wait_lone sensor 0 (S N) sched 0 sys0 Ho) as (sys' & HW & Hwg & Hctx & Hgo);
      try reflexivity; try lia.
    exists sys'. repeat apply conj; auto.
    rewrite Hgo. f_equal. apply after_loop_fst_runtime. }
  subst l. fold N in HWait |- *. clearbody N.
  destruct (run_to_budget sensor 0 runtime N HN) as [R1 R2]. cbv zeta in R1, R2.
  fold l0 in R1, R2. rewrite R1, R2. cbn [fst].
  pose proof (passes_spec sensor N l0) as P. cbv zeta in P.
  destruct P as (Pit & PX & PY & PZ & PRX & PRY & PRZ & _ & Pimu & Pst).
  specialize (Pst eq_refl).
  pose proof (after_loop_exits runtime (fst (passes N sensor l0))) as [Hex Hset].
  assert (fst (Orientation sensor 10000%Z) <> None ->
          bg.status (fst (after_loop runtime (fst (passes N sensor l0)))) = Returned) as Hret.
  { intros Ho. apply (after_loop_returns sensor); [exact Pimu|].
    rewrite Pit. subst l0. cbn [bg.start bg.iterations].
    replace (0 + Z.of_nat N)%Z with 10000%Z by lia. exact Ho. }
  set (l := fst (after_loop runtime (fst (passes N sensor l0)))) in *.
  assert (bg.X l = feed (accel r3.X 0%Z N) (New 50) /\
          bg.Y l = feed (accel r3.Y 0%Z N) (New 50) /\
          bg.Z l = feed (accel r3.Z 0%Z N) (New 50) /\
          bg.RX l = feed (gyro r3.X 0%Z N) (New 50) /\
          bg.RY l = feed (gyro r3.Y 0%Z N) (New 50) /\
          bg.RZ l = feed (gyro r3.Z 0%Z N) (New 50) /\
          bg.iterations l = 10000%Z) as (HX & HY & HZ & HRX & HRY & HRZ & Hit).
  { rewrite Hset. cbn [bg.set_status bg.X bg.Y bg.Z bg.RX bg.RY bg.RZ bg.iterations].
    rewrite PX, PY, PZ, PRX, PRY, PRZ, Pit. subst l0.
    cbn [bg.start bg.X bg.Y bg.Z bg.RX bg.RY bg.RZ bg.iterations].
    repeat apply conj; try reflexivity. lia. }
  assert (0 < 50)%nat as H50 by lia.
  split; [repeat apply conj|split; [split|split; [|split; [repeat apply conj|]]]].
  - exact Pst.
  - exact Hit.
  - exact Hex.
  - intros comp. apply deferred_Done_exit, Hex.
  - reflexivity.
  - intros Ho. split; [exact (Hret Ho) | exact (HWait Ho)].
  - apply passes_log_failing, Hf.
  - rewrite HX. apply feed_New, H50.
  - rewrite HY. apply feed_New, H50.
  - rewrite HZ. apply feed_New, H50.
  - rewrite HRX. apply feed_New, H50.
  - rewrite HRY. apply feed_New, H50.
  - rewrite HRZ. apply feed_New, H50.
  - intros Hz. rewrite HX, HY, HZ, HRX, HRY, HRZ.
    repeat apply conj; apply Avg_feed_zero; intros i; destruct (Hz i) as [Ha Hg];
      try rewrite Ha; try rewrite Hg; reflexivity.
Qed.

Lemma always_failing_sensor_run_witness :
  always_fails silent /\
  bg.iterations (fst (run (S (Z.to_nat 10000)) (fun _ => false) 0 (bg.start 0 (Some silent))))
  = 10000%Z /\
  (bg.status (fst (run (S (Z.to_nat 10000)) (fun _ => false) 0 (bg.start 0 (Some silent))))
   = Returned /\
   forall sched, exists sys',
     Wait (S (Z.to_nat 10000)) sched (fst (startBackground (set_imu silent fresh)))
     = Some sys' /\
     wg (s sys') = 0%Z /\ contexts sys' = [false] /\
     goroutines sys' =
     [fst (run (S (Z.to_nat 10000)) (fun _ => false) 0 (bg.start 0 (Some silent)))]) /\
  Avg (bg.X (fst (run (S (Z.to_nat 10000)) (fun _ => false) 0 (bg.start 0 (Some silent)))))
  = 0%float.
Proof.
  assert (always_fails silent) as Hf
    by (intros i; repeat apply conj; simpl; discriminate).
  assert (forall i, fst (LinearAcceleration silent i) = zero_vector /\
                    fst (AngularVelocity silent i) = zero_vector) as Hz
    by (intros i; split; reflexivity).
  assert (fst (Orientation silent 10000%Z) <> None) as Ho by (simpl; discriminate).
  split; [exact Hf|]. split; [|split].
  - exact (proj1 (proj2 (proj1 (always_failing_sensor_run silent 0 Hf)))).
  - exact (proj2 (proj1 (proj2 (always_failing_sensor_run silent 0 Hf))) Ho).
  - exact (proj1 (proj2 (proj2 (proj2 (proj2 (always_failing_sensor_run silent 0 Hf)))) Hz)).
Defined.

End Budget.


(** * Further properties of the code *)

(** ** Configuration and construction *)

Section Construction.

(** [Reconfigure] fails, leaving the component untouched, when the
    configuration is not a [*Config], when no dependency has the
    configured name, or when that dependency is not a movement sensor.
    Otherwise it returns nil, stores that sensor, and starts exactly one
    goroutine on it under a new, live context whose cancel function it
    keeps; the log and the goroutines already there are as before. *)
Lemma Reconfigure_outcome (deps : gmap string resource.Resource)
    (conf : resource.Config Config) (sys : System) :
  match resource.ConvertedAttributes conf with
  | None => Reconfigure deps conf sys = (sys, Some UnexpectedTypeError)
  | Some cfg =>
      match deps !! IMU cfg with
      | None => Reconfigure deps conf sys = (sys, Some (DependencyNotFoundError (IMU cfg)))
      | Some resource.OtherResource =>
          Reconfigure deps conf sys = (sys, Some (DependencyTypeError (IMU cfg)))
      | Some (resource.MovementSensorResource sensor) =>
          let sys' := fst (Reconfigure deps conf sys) in
          let c := length (contexts sys) in
          snd (Reconfigure deps conf sys) = None /\
          imu (s sys') = Some sensor /\
          cancelFunc (s sys') = Some c /\
          wg (s sys') = (wg (s sys) + 1)%Z /\
          contexts sys' = contexts sys ++ [false] /\
          goroutines sys' = goroutines sys ++ [bg.start c (Some sensor)] /\
          logger sys' = logger sys
      end
  end.
Proof.
  unfold Reconfigure, resource.NativeConfig, FromDependencies.
  destruct (resource.ConvertedAttributes conf) as [cfg|]; [|reflexivity].
  destruct (deps !! IMU cfg) as [[sensor|]|]; try reflexivity.
  cbv zeta. repeat apply conj; reflexivity.
Qed.

(** X2. [Validate] and [Reconfigure] agree on the dependency: when
    [Validate] accepts a configuration it announces exactly one
    dependency, the non-empty sensor name, and [Reconfigure] succeeds on
    that configuration as soon as the dependencies hold a movement sensor
    under every announced name. *)
Theorem Validate_announces_what_Reconfigure_needs (cfg : Config) (path : string)
    (names : list string) (deps : gmap string resource.Resource) (sys : System) :
  Validate cfg path = (Some names, None) ->
  (forall name, In name names ->
     exists sensor, deps !! name = Some (resource.MovementSensorResource sensor)) ->
  names = [IMU cfg] /\ IMU cfg <> "" /\
  snd (Reconfigure deps {| resource.ConvertedAttributes := Some cfg |} sys) = None.
Proof.
  unfold Validate. destruct (decide (IMU cfg = "")) as [He|Hne]; [discriminate|].
  intros [= <-] Hdeps. repeat apply conj; [reflexivity | exact Hne |].
  destruct (Hdeps (IMU cfg)) as [sensor Hs]; [left; reflexivity|].
  unfold Reconfigure, resource.NativeConfig, FromDependencies. cbn. rewrite Hs. reflexivity.
Qed.

Lemma Validate_announces_what_Reconfigure_needs_witness :
  [ "imu0" ] = [IMU {| IMU := "imu0" |}] /\ IMU {| IMU := "imu0" |} <> "" /\
  snd (Reconfigure (deps_of steady)
         {| resource.ConvertedAttributes := Some {| IMU := "imu0" |} |} fresh) = None.
Proof.
  apply (Validate_announces_what_Reconfigure_needs {| IMU := "imu0" |} "components.0"
           [ "imu0" ] (deps_of steady) fresh).
  - reflexivity.
  - intros name [<-|[]]. exists steady. reflexivity.
Defined.

End Construction.

(** ** The entry point *)

Section EntryPoint.


End EntryPoint.

(** ** Invariants of the goroutines *)

Section Invariants.
Import movingaverage.

Lemma readings_snoc read axis from n :
  readings read axis from (S n) =
  readings read axis from n ++ [axis (fst (read (from + Z.of_nat n)%Z))].
Proof. unfold readings. rewrite seq_S, map_app. reflexivity. Qed.

(** A pass keeps the averages in step with the readings. *)
Lemma loop_body_well_formed sensor l :
  bg.imu l = Some sensor -> (bg.iterations l < 10000)%Z ->
  well_formed l -> well_formed (fst (loop_body sensor l)).
Proof.
  intros Himu Hlt ([Hlo Hhi] & sensor' & Himu' & HX & HY & HZ & HRX & HRY & HRZ).
  assert (sensor' = sensor) as -> by congruence.
  pose proof (loop_body_spec sensor l) as H. cbv zeta in H.
  destruct H as (_ & (BX & BY & BZ) & (BRX & BRY & BRZ) & Bit & _ & _ & Bimu).
  split; [rewrite Bit; lia|]. exists sensor. split; [congruence|].
  unfold fed_by. cbv zeta. rewrite Bit.
  replace (Z.to_nat (bg.iterations l + 1)) with (S (Z.to_nat (bg.iterations l))) by lia.
  rewrite !readings_snoc, !feed_snoc.
  replace (0 + Z.of_nat (Z.to_nat (bg.iterations l)))%Z with (bg.iterations l) by lia.
  rewrite BX, BY, BZ, BRX, BRY, BRZ, HX, HY, HZ, HRX, HRY, HRZ.
  repeat apply conj; reflexivity.
Qed.

Lemma background_well_formed cancelled runtime l :
  well_formed l -> well_formed (fst (background cancelled runtime l)).
Proof.
  intros Hwf. unfold background.
  destruct (cancelled || (10000 <=? bg.iterations l)%Z) eqn:Hexit.
  - pose proof (after_loop_exits runtime l) as [_ ->]. exact Hwf.
  - apply orb_false_iff in Hexit as [_ Hlt]. apply Z.leb_gt in Hlt.
    pose proof Hwf as (_ & sensor & Himu & _). rewrite Himu.
    apply loop_body_well_formed; assumption.
Qed.

Lemma start_well_formed c sensor : well_formed (bg.start c (Some sensor)).
Proof.
  split; [simpl; lia|]. exists sensor. split; [reflexivity|].
  unfold fed_by. cbn. repeat apply conj; reflexivity.
Qed.

(** Every goroutine of a reachable state is well formed. *)
Lemma reachable_well_formed sys : reachable sys -> Forall well_formed (goroutines sys).
Proof.
  induction 1 as [|sys sensor _ IH|sys _ IH Himu|sys _ IH|sys k runtime _ IH].
  - constructor.
  - exact IH.
  - unfold startBackground. cbn [fst goroutines].
    apply Forall_app. split; [exact IH|]. constructor; [|constructor].
    destruct (imu (s sys)) as [sensor|]; [apply start_well_formed | congruence].
  - unfold Close_cancel, log. cbn [s cancelFunc].
    destruct (cancelFunc (s sys)); exact IH.
  - destruct (goroutines sys !! k) as [l|] eqn:Hk.
    + destruct (bg.status l) eqn:Hst;
        try (rewrite goroutine_step_idle; [exact IH | intros l' Hl'; congruence]).
      rewrite (goroutine_step_running sys k runtime l Hk Hst). cbv zeta. cbn [goroutines].
      apply Forall_insert; [exact IH|].
      apply background_well_formed. exact (proj1 (Forall_lookup _ _) IH k l Hk).
    + rewrite goroutine_step_idle; [exact IH | intros l' Hl'; congruence].
Qed.

(** X4. In every reachable state, every goroutine has made between 0 and
    10000 passes, still holds the sensor it was started with, and each of
    its six averages holds exactly the values which the reads of that
    sensor returned in those passes, in order: the averages are a function
    of the sensor's answers and of the number of passes alone. *)
Theorem goroutines_stay_within_budget (sys : System) (k : nat) (l : bg.locals) :
  reachable sys ->
  goroutines sys !! k = Some l ->
  (0 <= bg.iterations l <= 10000)%Z /\
  exists sensor,
    bg.imu l = Some sensor /\
    let n := Z.to_nat (bg.iterations l) in
    bg.X l = feed (readings (LinearAcceleration sensor) r3.X 0%Z n) (New 50) /\
    bg.Y l = feed (readings (LinearAcceleration sensor) r3.Y 0%Z n) (New 50) /\
    bg.Z l = feed (readings (LinearAcceleration sensor) r3.Z 0%Z n) (New 50) /\
    bg.RX l = feed (readings (AngularVelocity sensor) r3.X 0%Z n) (New 50) /\
    bg.RY l = feed (readings (AngularVelocity sensor) r3.Y 0%Z n) (New 50) /\
    bg.RZ l = feed (readings (AngularVelocity sensor) r3.Z 0%Z n) (New 50).
Proof.
  intros Hreach Hk.
  exact (proj1 (Forall_lookup _ _) (reachable_well_formed sys Hreach) k l Hk).
Qed.

Lemma goroutines_stay_within_budget_witness :
  (0 <= bg.iterations (bg.start 0 (Some steady)) <= 10000)%Z /\
  exists sensor,
    bg.imu (bg.start 0 (Some steady)) = Some sensor /\
    let n := Z.to_nat (bg.iterations (bg.start 0 (Some steady))) in
    bg.X (bg.start 0 (Some steady)) =
      feed (readings (LinearAcceleration sensor) r3.X 0%Z n) (New 50) /\
    bg.Y (bg.start 0 (Some steady)) =
      feed (readings (LinearAcceleration sensor) r3.Y 0%Z n) (New 50) /\
    bg.Z (bg.start 0 (Some steady)) =
      feed (readings (LinearAcceleration sensor) r3.Z 0%Z n) (New 50) /\
    bg.RX (bg.start 0 (Some steady)) =
      feed (readings (AngularVelocity sensor) r3.X 0%Z n) (New 50) /\
    bg.RY (bg.start 0 (Some steady)) =
      feed (readings (AngularVelocity sensor) r3.Y 0%Z n) (New 50) /\
    bg.RZ (bg.start 0 (Some steady)) =
      feed (readings (AngularVelocity sensor) r3.Z 0%Z n) (New 50).
Proof.
  exact (goroutines_stay_within_budget (fst (newStumbler (deps_of steady) conf0)) 0
           (bg.start 0 (Some steady))
           (reachable_Reconfigure (deps_of steady) conf0 fresh reach_fresh) eq_refl).
Defined.

End Invariants.

(** ** The wait group and the contexts *)

Section WaitGroup.

Lemma running_from_lookup b gs k l :
  gs !! k = Some l -> is_running l = true -> In (b + k)%nat (running_from b gs).
Proof.
  revert b k. induction gs as [|g gs IH]; intros b k Hk Hl; [discriminate|].
  destruct k as [|k]; simpl in *.
  - injection Hk as ->. rewrite Hl, Nat.add_0_r. left. reflexivity.
  - replace (b + S k)%nat with (S b + k)%nat by lia.
    destruct (is_running g); [right|]; apply IH; assumption.
Qed.

(** X5. In every reachable state the wait-group counter is the number of
    goroutines still executing.  So it is never negative, it is at least 1
    whenever some goroutine still runs (the deferred [Done] never drives
    it below zero), and it is 0 exactly when every goroutine has left its
    function. *)
Theorem WaitGroup_counts_running_goroutines (sys : System) :
  reachable sys ->
  wg (s sys) = Z.of_nat (length (runnable sys)) /\
  (0 <= wg (s sys))%Z /\
  (forall k l, goroutines sys !! k = Some l -> bg.status l = Running -> (1 <= wg (s sys))%Z) /\
  (wg (s sys) = 0%Z <->
   forall k l, goroutines sys !! k = Some l -> bg.status l <> Running).
Proof.
  intros Hreach. destruct (reachable_consistent sys Hreach) as (Hwg & _).
  assert (forall k l, goroutines sys !! k = Some l -> bg.status l = Running ->
                      (1 <= wg (s sys))%Z) as Hone.
  { intros k l Hk Hst. rewrite Hwg. unfold runnable.
    pose proof (running_from_lookup 0 _ k l Hk (proj2 (is_running_status l) Hst)) as Hin.
    destruct (running_from 0 (goroutines sys)); [destruct Hin | simpl; lia]. }
  split; [exact Hwg|]. split; [lia|]. split; [exact Hone|]. split.
  - intros Hz k l Hk Hst. specialize (Hone k l Hk Hst). lia.
  - intros Hnone. rewrite Hwg. unfold runnable.
    destruct (running_from 0 (goroutines sys)) as [|r rs] eqn:Hr; [reflexivity|].
    destruct (running_from_In 0 (goroutines sys) r) as (l & Hl & Hrun & _);
      [rewrite Hr; left; reflexivity|].
    rewrite Nat.sub_0_r in Hl. apply is_running_status in Hrun.
    destruct (Hnone r l Hl Hrun).
Qed.

Lemma WaitGroup_counts_running_goroutines_witness :
  wg (s (fst (newStumbler (deps_of steady) conf0))) =
  Z.of_nat (length (runnable (fst (newStumbler (deps_of steady) conf0)))).
Proof.
  exact (proj1 (WaitGroup_counts_running_goroutines _
                  (reachable_Reconfigure (deps_of steady) conf0 fresh reach_fresh))).
Defined.

(** A slice never touches the contexts nor the component's sensor and
    cancel function. *)
Lemma goroutine_step_frame k runtime sys :
  contexts (goroutine_step k runtime sys) = contexts sys /\
  cancelFunc (s (goroutine_step k runtime sys)) = cancelFunc (s sys) /\
  imu (s (goroutine_step k runtime sys)) = imu (s sys) /\
  length (goroutines (goroutine_step k runtime sys)) = length (goroutines sys).
Proof.
  unfold goroutine_step. destruct (goroutines sys !! k) as [l|]; [|auto].
  destruct (bg.status l); auto.
  destruct (background _ runtime l) as [l' out]. cbn [contexts s goroutines].
  rewrite length_insert. unfold deferred_Done.
  destruct (bg.status l'); auto.
Qed.

Lemma Wait_frame fuel : forall sched sys sys',
  Wait fuel sched sys = Some sys' ->
  wg (s sys') = 0%Z /\
  contexts sys' = contexts sys /\
  cancelFunc (s sys') = cancelFunc (s sys) /\
  imu (s sys') = imu (s sys) /\
  length (goroutines sys') = length (goroutines sys).
Proof.
  induction fuel as [|fuel IH]; intros sched sys sys'; cbn [Wait];
    destruct (crashed sys); try discriminate;
    destruct (Z.eqb_spec (wg (s sys)) 0) as [Hz|Hnz]; try discriminate;
    try (intros [= <-]; auto).
  destruct (runnable sys) as [|r rs]; [discriminate|].
  destruct (sched O) as [choice runtime]. intros HW.
  destruct (IH _ _ _ HW) as (H0 & H1 & H2 & H3 & H4).
  destruct (goroutine_step_frame (nth (choice mod length (r :: rs)) (r :: rs) r) runtime sys)
    as (G1 & G2 & G3 & G4).
  repeat apply conj; congruence.
Qed.

Lemma ctx_cancelled_insert sys c c' :
  ctx_cancelled (cancel c sys) c' =
  ctx_cancelled sys c' || (bool_decide (c' = c) && bool_decide (c < length (contexts sys))%nat).
Proof.
  unfold ctx_cancelled, cancel. cbn [contexts].
  destruct (decide (c' = c)) as [->|Hne].
  - rewrite bool_decide_eq_true_2 by reflexivity. cbn [andb].
    destruct (decide (c < length (contexts sys))%nat) as [Hlt|Hge].
    + rewrite list_lookup_insert_eq by exact Hlt.
      rewrite bool_decide_eq_true_2 by exact Hlt. rewrite orb_true_r. reflexivity.
    + rewrite list_insert_ge by lia. rewrite bool_decide_eq_false_2 by exact Hge.
      rewrite orb_false_r. reflexivity.
  - rewrite list_lookup_insert_ne by congruence.
    rewrite bool_decide_eq_false_2 by exact Hne. cbn [andb]. rewrite orb_false_r. reflexivity.
Qed.

(** X6. Only [Close] cancels, and only the context whose cancel function
    the component holds.  After a [Close] that returns, a context is
    cancelled exactly if it was cancelled before or is the one of
    [s.cancelFunc]; the contexts of goroutines started by earlier calls of
    [Reconfigure] stay live.  [Reconfigure], [DoCommand] and the
    goroutines themselves leave every existing context as it is, and the
    context [Reconfigure] adds starts live. *)
Theorem only_Close_cancels (sys : System) :
  (forall fuel sched sys' e c,
     Close fuel sched sys = Some (sys', e) ->
     (ctx_cancelled sys' c = true <->
      ctx_cancelled sys c = true \/
      (cancelFunc (s sys) = Some c /\ (c < length (contexts sys))%nat))) /\
  (forall deps conf c,
     (c < length (contexts sys))%nat ->
     ctx_cancelled (fst (Reconfigure deps conf sys)) c = ctx_cancelled sys c) /\
  (forall deps conf,
     ctx_cancelled (fst (Reconfigure deps conf sys)) (length (contexts sys)) = false) /\
  (forall k runtime c, ctx_cancelled (goroutine_step k runtime sys) c = ctx_cancelled sys c) /\
  (forall req c, ctx_cancelled (fst (DoCommand req sys)) c = ctx_cancelled sys c).
Proof.
  split; [|split; [|split; [|split]]].
  - intros fuel sched sys' e c. unfold Close.
    destruct (Wait fuel sched (Close_cancel sys)) as [sys1|] eqn:HW; [|discriminate].
    intros [= <- _]. destruct (Wait_frame _ _ _ _ HW) as (_ & Hctx & _).
    unfold ctx_cancelled at 1. rewrite Hctx. fold (ctx_cancelled (Close_cancel sys) c).
    unfold Close_cancel. cbn [log s cancelFunc].
    destruct (cancelFunc (s sys)) as [c0|].
    + rewrite ctx_cancelled_insert. cbn [log contexts].
      change (ctx_cancelled (log (Info "SMURF CLOSING STUMBLER") sys) c)
        with (ctx_cancelled sys c).
      rewrite orb_true_iff, andb_true_iff, !bool_decide_eq_true.
      split; intros [H|[H1 H2]]; auto.
      * right. subst. auto.
      * right. injection H1 as ->. auto.
    + change (ctx_cancelled (log (Info "SMURF CLOSING STUMBLER") sys) c)
        with (ctx_cancelled sys c).
      split; [auto | intros [H|[H _]]; [exact H | discriminate]].
  - intros deps conf c Hc. unfold Reconfigure.
    destruct (resource.NativeConfig conf) as [newConf|e1]; [|reflexivity].
    destruct (FromDependencies deps (IMU newConf)) as [sensor|e2]; [|reflexivity].
    unfold ctx_cancelled, startBackground, set_imu. cbn [fst contexts].
    rewrite lookup_app_l by exact Hc. reflexivity.
  - intros deps conf. unfold Reconfigure.
    destruct (resource.NativeConfig conf) as [newConf|e1];
      [|unfold ctx_cancelled; cbn [fst]; rewrite lookup_ge_None_2 by lia; reflexivity].
    destruct (FromDependencies deps (IMU newConf)) as [sensor|e2];
      [|unfold ctx_cancelled; cbn [fst]; rewrite lookup_ge_None_2 by lia; reflexivity].
    unfold ctx_cancelled, startBackground, set_imu. cbn [fst contexts].
    rewrite list_lookup_middle by reflexivity. reflexivity.
  - intros k runtime c. unfold ctx_cancelled.
    rewrite (proj1 (goroutine_step_frame k runtime sys)). reflexivity.
  - intros req c. unfold DoCommand. destruct (req !! "command") as [cmd|]; [|reflexivity].
    destruct (decide (cmd = VString "get")); reflexivity.
Qed.

Lemma only_Close_cancels_witness :
  ctx_cancelled (fst (Reconfigure (deps_of steady) conf0
                        (fst (newStumbler (deps_of steady) conf0)))) 0 =
  ctx_cancelled (fst (newStumbler (deps_of steady) conf0)) 0.
Proof.
  apply (proj1 (proj2 (only_Close_cancels (fst (newStumbler (deps_of steady) conf0))))).
  vm_compute. lia.
Defined.

End WaitGroup.

(** ** Cancellation seen from the goroutine *)

Section Cancellation.
Import movingaverage.

(** X7. Cancellation is observed at the head of the loop, once per pass.
    A running goroutine whose context is cancelled (or whose budget is
    used up) makes no further acceleration or gyro read in its next slice:
    its counter and averages stay as they are, it writes its summary,
    leaves its function and takes one off the wait-group counter.  A
    running goroutine whose context is live and whose budget is not used
    up makes exactly one pass, and the counter of the wait group stays. *)
Theorem goroutine_slice (sys : System) (k : nat) (runtime : int) (l : bg.locals) :
  goroutines sys !! k = Some l ->
  bg.status l = Running ->
  let sys' := goroutine_step k runtime sys in
  (ctx_cancelled sys (bg.ctx l) = true \/ (10000 <= bg.iterations l)%Z ->
   exists st out,
     st <> Running /\
     goroutines sys' = <[k := bg.set_status st l]> (goroutines sys) /\
     wg (s sys') = (wg (s sys) - 1)%Z /\
     logger sys' = logger sys ++ summary runtime l ++ out) /\
  (ctx_cancelled sys (bg.ctx l) = false -> (bg.iterations l < 10000)%Z ->
   forall sensor, bg.imu l = Some sensor ->
     goroutines sys' = <[k := fst (loop_body sensor l)]> (goroutines sys) /\
     bg.iterations (fst (loop_body sensor l)) = (bg.iterations l + 1)%Z /\
     wg (s sys') = wg (s sys) /\
     logger sys' =
       logger sys ++ log_if_err (snd (LinearAcceleration sensor (bg.iterations l))) ++
                     log_if_err (snd (AngularVelocity sensor (bg.iterations l)))).
Proof.
  intros Hk Hst. cbv zeta.
  rewrite (goroutine_step_running sys k runtime l Hk Hst). cbv zeta.
  cbn [s goroutines logger]. unfold background. split.
  - intros Hexit.
    replace (ctx_cancelled sys (bg.ctx l) || (10000 <=? bg.iterations l)%Z) with true
      by (symmetry; apply orb_true_iff; destruct Hexit as [->|Hge];
          [left; reflexivity | right; apply Z.leb_le; exact Hge]).
    pose proof (after_loop_exits runtime l) as [Hex Hset].
    exists (bg.status (fst (after_loop runtime l))).
    assert (exists out, snd (after_loop runtime l) = summary runtime l ++ out) as [out Hout].
    { unfold after_loop. destruct (bg.imu l) as [sensor|].
      - destruct (final_orientation sensor l) as [st out]. exists out. reflexivity.
      - exists []. rewrite app_nil_r. reflexivity. }
    exists out. split; [exact Hex|]. split; [rewrite <- Hset; reflexivity|].
    split; [apply deferred_Done_exit, Hex | rewrite Hout; reflexivity].
  - intros Hc Hlt sensor Himu. rewrite Hc. cbn [orb].
    destruct (Z.leb_spec 10000 (bg.iterations l)) as [Hge|_]; [lia|].
    rewrite Himu.
    pose proof (loop_body_spec sensor l) as H. cbv zeta in H.
    destruct H as (Hlog & _ & _ & Hit & Hrun & _).
    rewrite Hrun, Hlog. repeat apply conj; auto.
Qed.

Lemma goroutine_slice_witness :
  exists st out,
    st <> Running /\
    goroutines (goroutine_step 0 0 (Close_cancel (fst (newStumbler (deps_of steady) conf0)))) =
      <[0%nat := bg.set_status st (bg.start 0 (Some steady))]>
        (goroutines (Close_cancel (fst (newStumbler (deps_of steady) conf0)))) /\
    wg (s (goroutine_step 0 0 (Close_cancel (fst (newStumbler (deps_of steady) conf0))))) =
      (wg (s (Close_cancel (fst (newStumbler (deps_of steady) conf0)))) - 1)%Z /\
    logger (goroutine_step 0 0 (Close_cancel (fst (newStumbler (deps_of steady) conf0)))) =
      logger (Close_cancel (fst (newStumbler (deps_of steady) conf0))) ++
      summary 0 (bg.start 0 (Some steady)) ++ out.
Proof.
  apply (proj1 (goroutine_slice (Close_cancel (fst (newStumbler (deps_of steady) conf0)))
                  0 0 (bg.start 0 (Some steady)) eq_refl eq_refl)).
  left. reflexivity.
Defined.

Lemma run_done fuel cancelled runtime l :
  bg.status l <> Running -> run fuel cancelled runtime l = (l, []).
Proof. destruct fuel; simpl; destruct (bg.status l); congruence. Qed.

Lemma flat_map_seq_S {B : Type} (f : nat -> list B) n : forall a,
  flat_map f (seq (S a) n) = flat_map (fun i => f (S i)) (seq a n).
Proof.
  induction n as [|n IH]; intros a; [reflexivity|].
  cbn [seq flat_map]. rewrite IH. reflexivity.
Qed.

(** The errors logged by [n] passes. *)
Lemma passes_log sensor n : forall l,
  snd (passes n sensor l) = errors_of sensor (bg.iterations l) n.
Proof.
  induction n as [|n IH]; intros l; [reflexivity|].
  cbn [passes].
  pose proof (loop_body_spec sensor l) as H. cbv zeta in H.
  destruct H as (Hlog & _ & _ & Hit & _).
  destruct (loop_body sensor l) as [l1 out1]. cbn [fst snd] in *.
  specialize (IH l1). destruct (passes n sensor l1) as [l2 out2]. cbn [snd] in *.
  rewrite IH, Hlog, Hit. unfold errors_of.
  rewrite <- cons_seq. cbn [flat_map]. rewrite Z.add_0_r. f_equal.
  rewrite flat_map_seq_S. apply flat_map_ext. intros i.
  replace (bg.iterations l + 1 + Z.of_nat i)%Z with (bg.iterations l + Z.of_nat (S i))%Z by lia.
  reflexivity.
Qed.

(** While the context is live the goroutine makes its passes. *)
Lemma run_passes_until sensor cancelled runtime (n fuel : nat) (l : bg.locals) :
  bg.status l = Running -> bg.imu l = Some sensor ->
  (bg.iterations l + Z.of_nat n <= 10000)%Z ->
  (forall i, (bg.iterations l <= i < bg.iterations l + Z.of_nat n)%Z -> cancelled i = false) ->
  run (n + fuel) cancelled runtime l =
  (fst (run fuel cancelled runtime (fst (passes n sensor l))),
   snd (passes n sensor l) ++ snd (run fuel cancelled runtime (fst (passes n sensor l)))).
Proof.
  revert l. induction n as [|n IH]; intros l Hst Himu Hle Hlive.
  - simpl. destruct (run fuel _ runtime l). reflexivity.
  - cbn [Nat.add run passes]. rewrite Hst.
    unfold background. rewrite (Hlive (bg.iterations l)) by lia. cbn [orb].
    destruct (Z.leb_spec 10000 (bg.iterations l)) as [Hge|Hlt]; [lia|].
    rewrite Himu.
    pose proof (loop_body_spec sensor l) as H. cbv zeta in H.
    destruct (loop_body sensor l) as [l1 out1]. cbn [fst snd] in H.
    destruct H as (_ & _ & _ & Hit & Hst1 & _ & Himu1).
    rewrite IH; try congruence; try lia.
    + destruct (passes n sensor l1) as [l2 out2]. cbn [fst snd].
      rewrite app_assoc. reflexivity.
    + intros i Hi. apply Hlive. lia.
Qed.

(** X8. A goroutine whose context is found live at the head of its first K
    passes and cancelled at the next (or whose budget ends there, K =
    10000) makes exactly K passes, whatever the sensor: it leaves with
    [iterations] = K and averages fed by the K readings of each channel,
    and its log is the errors of the failed reads of those K passes, in
    order, followed by the lines written after the loop.  K + 1 slices
    suffice and further slices change nothing. *)
Theorem run_cancelled_after (sensor : MovementSensor) (c : nat) (runtime K : int)
    (cancelled : int -> bool) (fuel : nat) :
  (0 <= K <= 10000)%Z ->
  (forall i, (0 <= i < K)%Z -> cancelled i = false) ->
  ((K < 10000)%Z -> cancelled K = true) ->
  (Z.to_nat K < fuel)%nat ->
  let l0 := bg.start c (Some sensor) in
  let lK := fst (passes (Z.to_nat K) sensor l0) in
  let r := run fuel cancelled runtime l0 in
  fst r = fst (after_loop runtime lK) /\
  snd r = errors_of sensor 0 (Z.to_nat K) ++ snd (after_loop runtime lK) /\
  bg.iterations (fst r) = K /\
  bg.status (fst r) <> Running /\
  fed_by sensor (fst r).
Proof.
  intros HK Hlive Hcut Hfuel l0 lK r.
  set (n := Z.to_nat K) in *.
  assert (Z.of_nat n = K) as Hn by (subst n; lia).
  destruct fuel as [|fuel']; [lia|].
  assert (exists extra, S fuel' = (n + S extra)%nat) as [extra Hx]
    by (exists (fuel' - n)%nat; lia).
  pose proof (passes_spec sensor n l0) as P. cbv zeta in P.
  destruct P as (Pit & PX & PY & PZ & PRX & PRY & PRZ & _ & Pimu & Pst).
  specialize (Pst eq_refl). fold lK in Pit, PX, PY, PZ, PRX, PRY, PRZ, Pimu, Pst.
  cbn [bg.start bg.iterations bg.X bg.Y bg.Z bg.RX bg.RY bg.RZ bg.imu l0] in *.
  assert (run (S extra) cancelled runtime lK =
          (fst (after_loop runtime lK), snd (after_loop runtime lK) ++ [])) as Hlast.
  { cbn [run]. rewrite Pst. unfold background.
    replace (cancelled (bg.iterations lK) || (10000 <=? bg.iterations lK)%Z) with true.
    - pose proof (after_loop_exits runtime lK) as [Hex _].
      destruct (after_loop runtime lK) as [l' out]. cbn [fst snd] in *.
      rewrite run_done by exact Hex. reflexivity.
    - symmetry. apply orb_true_iff. rewrite Pit, Hn.
      destruct (Z.eq_dec K 10000%Z) as [->|Hne]; [right; reflexivity|].
      left. apply Hcut. lia. }
  assert (r = (fst (after_loop runtime lK),
               errors_of sensor 0 n ++ snd (after_loop runtime lK))) as Hr.
  { subst r. rewrite Hx.
    rewrite (run_passes_until sensor cancelled runtime n (S extra) l0);
      [ | reflexivity | reflexivity
        | subst l0; cbn [bg.start bg.iterations]; lia
        | subst l0; cbn [bg.start bg.iterations]; intros i Hi; apply Hlive; lia ].
    fold lK. rewrite Hlast. cbn [fst snd].
    rewrite app_nil_r, passes_log. reflexivity. }
  rewrite Hr. cbn [fst snd].
  pose proof (after_loop_exits runtime lK) as [Hex Hset].
  split; [reflexivity|]. split; [reflexivity|]. split; [|split].
  - rewrite Hset. cbn [bg.set_status bg.iterations]. lia.
  - exact Hex.
  - rewrite Hset. unfold fed_by.
    cbn [bg.set_status bg.iterations bg.X bg.Y bg.Z bg.RX bg.RY bg.RZ].
    cbv zeta. rewrite Pit. replace (Z.to_nat (0 + Z.of_nat n)) with n by lia.
    repeat apply conj; assumption.
Qed.

Lemma run_cancelled_after_witness :
  bg.iterations (fst (run 4 (fun i => (3 <=? i)%Z) 0 (bg.start 0 (Some flaky)))) = 3%Z.
Proof.
  refine (proj1 (proj2 (proj2
            (run_cancelled_after flaky 0 0 3 (fun i => (3 <=? i)%Z) 4 _ _ _ _)))).
  - lia.
  - intros i Hi. apply Z.leb_gt. lia.
  - intros _. reflexivity.
  - vm_compute. lia.
Defined.

End Cancellation.

(** ** Operations in sequence *)

Section Sequences.

Lemma reachable_Close fuel sched sys sys' e :
  reachable sys -> Close fuel sched sys = Some (sys', e) -> reachable sys'.
Proof.
  intros Hr. unfold Close.
  destruct (Wait fuel sched (Close_cancel sys)) as [sys1|] eqn:HW; [|discriminate].
  intros [= <- _]. exact (reachable_Wait _ _ _ _ (reach_Close_cancel _ Hr) HW).
Qed.

Lemma Close_counter fuel sched sys sys' e :
  Close fuel sched sys = Some (sys', e) -> wg (s sys') = 0%Z.
Proof.
  unfold Close.
  destruct (Wait fuel sched (Close_cancel sys)) as [sys1|] eqn:HW; [|discriminate].
  intros [= <- _]. exact (proj1 (Wait_frame _ _ _ _ HW)).
Qed.

Lemma consistent_idle sys : consistent sys -> wg (s sys) = 0%Z -> runnable sys = [].
Proof.
  intros (Hwg & _) Hz. rewrite Hz in Hwg.
  destruct (runnable sys); [reflexivity | simpl in Hwg; lia].
Qed.

(** X9. [Close] followed by [Reconfigure] swaps the worker without
    overlap: once [Close] has returned on a reachable component, a
    successful [Reconfigure] leaves exactly one goroutine running, the new
    one, under a live context whose cancel function the component holds,
    with the wait-group counter at 1. *)
Theorem Reconfigure_after_Close_runs_one_goroutine (sys sys' : System) (e : option error)
    (fuel : nat) (sched : nat -> nat * int)
    (deps : gmap string resource.Resource) (conf : resource.Config Config) :
  reachable sys ->
  Close fuel sched sys = Some (sys', e) ->
  snd (Reconfigure deps conf sys') = None ->
  let sys'' := fst (Reconfigure deps conf sys') in
  runnable sys'' = [length (goroutines sys')] /\
  wg (s sys'') = 1%Z /\
  cancelFunc (s sys'') = Some (length (contexts sys')) /\
  ctx_cancelled sys'' (length (contexts sys')) = false /\
  exists l, goroutines sys'' !! length (goroutines sys') = Some l /\
            bg.status l = Running /\ bg.ctx l = length (contexts sys') /\
            bg.imu l = imu (s sys'').
Proof.
  intros Hreach HC. pose proof (Close_counter _ _ _ _ _ HC) as Hz.
  pose proof (consistent_idle _ (reachable_consistent _ (reachable_Close _ _ _ _ _ Hreach HC)) Hz)
    as Hidle.
  unfold Reconfigure.
  destruct (resource.NativeConfig conf) as [newConf|e1]; [|discriminate].
  destruct (FromDependencies deps (IMU newConf)) as [sensor|e2]; [|discriminate].
  intros _. cbv zeta. unfold startBackground, set_imu, runnable, ctx_cancelled in *.
  cbn [fst s contexts goroutines wg cancelFunc imu].
  rewrite running_from_app, Hidle, Hz. cbn [is_running bg.start bg.status app Nat.add].
  rewrite !list_lookup_middle by reflexivity.
  repeat apply conj; try reflexivity.
  eexists. repeat apply conj; reflexivity.
Qed.

Lemma Reconfigure_after_Close_runs_one_goroutine_witness :
  map bg.status (goroutines (fst (newStumbler (deps_of steady) conf0))) = [Running] /\
  Close 1 sched0 (fst (newStumbler (deps_of steady) conf0)) = Some (closed_steady, None) /\
  map bg.status (goroutines closed_steady) = [Returned] /\
  (let sys'' := fst (Reconfigure (deps_of flaky) conf0 closed_steady) in
   runnable sys'' = [length (goroutines closed_steady)] /\
   wg (s sys'') = 1%Z /\
   cancelFunc (s sys'') = Some (length (contexts closed_steady)) /\
   ctx_cancelled sys'' (length (contexts closed_steady)) = false /\
   exists l, goroutines sys'' !! length (goroutines closed_steady) = Some l /\
             bg.status l = Running /\ bg.ctx l = length (contexts closed_steady) /\
             bg.imu l = imu (s sys'')) /\
  length (goroutines closed_steady) = 1%nat /\
  imu (s (fst (Reconfigure (deps_of flaky) conf0 closed_steady))) = Some flaky.
Proof.
  assert (Close 1 sched0 (fst (newStumbler (deps_of steady) conf0))
          = Some (closed_steady, None)) as HC by (vm_compute; reflexivity).
  split; [reflexivity|]. split; [exact HC|]. split; [vm_compute; reflexivity|].
  split; [|split; vm_compute; reflexivity].
  exact (Reconfigure_after_Close_runs_one_goroutine
           (fst (newStumbler (deps_of steady) conf0)) closed_steady None 1 sched0
           (deps_of flaky) conf0
           (reachable_Reconfigure (deps_of steady) conf0 fresh reach_fresh) HC eq_refl).
Defined.

(** X10. A goroutine keeps the sensor and the context it was started
    with.  No slice of any goroutine changes them; a later [Reconfigure],
    which may store another sensor in the component, leaves the goroutines
    already started exactly as they are, and so do [DoCommand] and the
    cancelling part of [Close]. *)
Theorem goroutine_keeps_its_sensor (sys : System) (j : nat) (l : bg.locals) :
  goroutines sys !! j = Some l ->
  (forall k runtime,
     exists l', goroutines (goroutine_step k runtime sys) !! j = Some l' /\
                bg.imu l' = bg.imu l /\ bg.ctx l' = bg.ctx l) /\
  (forall deps conf, goroutines (fst (Reconfigure deps conf sys)) !! j = Some l) /\
  (forall req, goroutines (fst (DoCommand req sys)) !! j = Some l) /\
  goroutines (Close_cancel sys) !! j = Some l.
Proof.
  intros Hj. split; [|split; [|split]].
  - intros k runtime. unfold goroutine_step.
    destruct (goroutines sys !! k) as [lk|] eqn:Hk; [|eauto].
    destruct (bg.status lk) eqn:Hst; eauto.
    destruct (decide (k = j)) as [->|Hne].
    + assert (lk = l) as -> by congruence.
      exists (fst (background (ctx_cancelled sys (bg.ctx l)) runtime l)).
      destruct (background (ctx_cancelled sys (bg.ctx l)) runtime l) as [l' out] eqn:Hb.
      cbn [goroutines fst].
      rewrite list_lookup_insert_eq by (eapply lookup_lt_Some; eauto).
      split; [reflexivity|].
      replace l' with (fst (background (ctx_cancelled sys (bg.ctx l)) runtime l))
        by (rewrite Hb; reflexivity).
      unfold background.
      destruct (ctx_cancelled sys (bg.ctx l) || (10000 <=? bg.iterations l)%Z).
      * pose proof (after_loop_exits runtime l) as [_ ->]. split; reflexivity.
      * destruct (bg.imu l) as [sensor|] eqn:Himu; [|split; [exact Himu | reflexivity]].
        pose proof (loop_body_spec sensor l) as H. cbv zeta in H.
        destruct H as (_ & _ & _ & _ & _ & Hctx & Himu'). split; congruence.
    + destruct (background _ runtime lk) as [l' out]. cbn [goroutines].
      exists l. rewrite list_lookup_insert_ne by exact Hne. auto.
  - intros deps conf. unfold Reconfigure.
    destruct (resource.NativeConfig conf) as [newConf|e1]; [|exact Hj].
    destruct (FromDependencies deps (IMU newConf)) as [sensor|e2]; [|exact Hj].
    unfold startBackground, set_imu. cbn [fst goroutines].
    rewrite lookup_app_l by (eapply lookup_lt_Some; eauto). exact Hj.
  - intros req. unfold DoCommand. destruct (req !! "command") as [cmd|]; [|exact Hj].
    destruct (decide (cmd = VString "get")); exact Hj.
  - unfold Close_cancel, log. cbn [s cancelFunc].
    destruct (cancelFunc (s sys)); exact Hj.
Qed.

Lemma goroutine_keeps_its_sensor_witness :
  goroutines (fst (Reconfigure (deps_of flaky) conf0
                     (fst (newStumbler (deps_of steady) conf0)))) !! 0%nat =
  Some (bg.start 0 (Some steady)).
Proof.
  exact (proj1 (proj2 (goroutine_keeps_its_sensor
                         (fst (newStumbler (deps_of steady) conf0)) 0
                         (bg.start 0 (Some steady)) eq_refl))
           (deps_of flaky) conf0).
Defined.

End Sequences.

(** ** The summary lines *)

Section SummaryLines.

Lemma count_RunFinished_app a b :
  count_RunFinished (a ++ b) = (count_RunFinished a + count_RunFinished b)%nat.
Proof.
  induction a as [|x a IH]; [reflexivity|].
  destruct x; cbn [app count_RunFinished]; rewrite IH; reflexivity.
Qed.

Lemma count_RunFinished_log_if_err err : count_RunFinished (log_if_err err) = O.
Proof. destruct err; reflexivity. Qed.

Lemma count_RunFinished_after_loop runtime l :
  count_RunFinished (snd (after_loop runtime l)) = 1%nat.
Proof.
  unfold after_loop. destruct (bg.imu l) as [sensor|]; [|reflexivity].
  unfold final_orientation.
  destruct (Orientation sensor (bg.iterations l)) as [[angles|] err]; cbn [snd summary app];
    cbn [count_RunFinished]; [rewrite count_RunFinished_app|];
    rewrite count_RunFinished_log_if_err; reflexivity.
Qed.

(** A slice of a goroutine that holds a sensor writes the "Run Finished"
    line exactly when it leaves the function. *)
Lemma count_RunFinished_background cancelled runtime l :
  bg.imu l <> None ->
  count_RunFinished (snd (background cancelled runtime l)) =
  if is_running (fst (background cancelled runtime l)) then O else 1%nat.
Proof.
  intros Himu. unfold background.
  destruct (cancelled || (10000 <=? bg.iterations l)%Z).
  - pose proof (after_loop_exits runtime l) as [Hex _].
    rewrite count_RunFinished_after_loop. unfold is_running.
    destruct (bg.status (fst (after_loop runtime l))); [congruence | reflexivity..].
  - destruct (bg.imu l) as [sensor|]; [|congruence].
    pose proof (loop_body_spec sensor l) as H. cbv zeta in H.
    destruct H as (Hlog & _ & _ & _ & Hst & _).
    unfold is_running. rewrite Hst, Hlog, count_RunFinished_app,
      !count_RunFinished_log_if_err. reflexivity.
Qed.

Lemma reachable_RunFinished sys :
  reachable sys ->
  (count_RunFinished (logger sys) + length (runnable sys))%nat = length (goroutines sys).
Proof.
  induction 1 as [|sys sensor _ IH|sys _ IH Himu|sys _ IH|sys k runtime Hr IH].
  - reflexivity.
  - exact IH.
  - unfold startBackground, runnable in *. cbn [fst logger goroutines].
    rewrite running_from_app, !length_app. cbn. lia.
  - unfold Close_cancel, log, runnable in *. cbn [s cancelFunc].
    destruct (cancelFunc (s sys)); cbn [cancel logger goroutines];
      rewrite count_RunFinished_app; cbn; lia.
  - destruct (goroutines sys !! k) as [l|] eqn:Hk.
    + destruct (bg.status l) eqn:Hst;
        try (rewrite goroutine_step_idle; [exact IH | intros l' Hl'; congruence]).
      rewrite (goroutine_step_running sys k runtime l Hk Hst). cbv zeta.
      unfold runnable in *. cbn [logger goroutines].
      pose proof (proj1 (Forall_lookup _ _) (reachable_well_formed sys Hr) k l Hk)
        as (_ & sensor & Himu & _).
      rewrite count_RunFinished_app, count_RunFinished_background by congruence.
      rewrite length_insert.
      pose proof (running_from_insert 0 (goroutines sys) k l
                    (fst (background (ctx_cancelled sys (bg.ctx l)) runtime l)) Hk
                    (proj2 (is_running_status l) Hst)) as Hlen.
      destruct (is_running (fst (background (ctx_cancelled sys (bg.ctx l)) runtime l))); lia.
    + rewrite goroutine_step_idle; [exact IH | intros l' Hl'; congruence].
Qed.

(** X11. Every goroutine writes its "Run Finished" line exactly once, in
    the slice in which it leaves its function: in every reachable state
    the number of these lines in the log is the number of goroutines that
    are no longer running.  So when [Close] returns, the log holds one
    such line for each goroutine ever started: [Close] returns only after
    every summary has been written. *)
Theorem Run_Finished_once_per_goroutine (sys : System) :
  reachable sys ->
  (count_RunFinished (logger sys) + length (runnable sys))%nat = length (goroutines sys) /\
  forall fuel sched sys' e,
    Close fuel sched sys = Some (sys', e) ->
    length (goroutines sys') = length (goroutines sys) /\
    count_RunFinished (logger sys') = length (goroutines sys').
Proof.
  intros Hreach. split; [exact (reachable_RunFinished sys Hreach)|].
  intros fuel sched sys' e HC.
  pose proof (reachable_Close _ _ _ _ _ Hreach HC) as Hreach'.
  pose proof (reachable_RunFinished sys' Hreach') as Hcount.
  rewrite (consistent_idle _ (reachable_consistent _ Hreach') (Close_counter _ _ _ _ _ HC))
    in Hcount.
  cbn [length] in Hcount. split; [|lia].
  unfold Close in HC.
  destruct (Wait fuel sched (Close_cancel sys)) as [sys1|] eqn:HW; [|discriminate].
  injection HC as <- _. destruct (Wait_frame _ _ _ _ HW) as (_ & _ & _ & _ & Hlen).
  rewrite Hlen. unfold Close_cancel, log. cbn [s cancelFunc].
  destruct (cancelFunc (s sys)); reflexivity.
Qed.

Lemma Run_Finished_once_per_goroutine_witness :
  (count_RunFinished (logger (fst (newStumbler (deps_of steady) conf0))) +
   length (runnable (fst (newStumbler (deps_of steady) conf0))))%nat =
  length (goroutines (fst (newStumbler (deps_of steady) conf0))).
Proof.
  exact (proj1 (Run_Finished_once_per_goroutine _
                  (reachable_Reconfigure (deps_of steady) conf0 fresh reach_fresh))).
Defined.

End SummaryLines.

(** ** Why a goroutine stops *)

Section Stopping.

Lemma stopped_for_cause_mono sys sys' l :
  (forall c, ctx_cancelled sys c = true -> ctx_cancelled sys' c = true) ->
  stopped_for_cause sys l -> stopped_for_cause sys' l.
Proof. intros Hmono H Hst. destruct (H Hst) as [Hc|Hit]; [left; auto | right; exact Hit]. Qed.

Lemma background_stopped_for_cause sys runtime l :
  well_formed l ->
  let l' := fst (background (ctx_cancelled sys (bg.ctx l)) runtime l) in
  stopped_for_cause sys l'.
Proof.
  intros ([_ Hhi] & sensor & Himu & _). cbv zeta. unfold background, stopped_for_cause.
  destruct (ctx_cancelled sys (bg.ctx l)) eqn:Hc; cbn [orb].
  - pose proof (after_loop_exits runtime l) as [_ ->]. intros _. left. exact Hc.
  - destruct (Z.leb_spec 10000 (bg.iterations l)) as [Hge|Hlt].
    + pose proof (after_loop_exits runtime l) as [_ ->]. intros _. right.
      cbn [bg.set_status bg.iterations]. lia.
    + rewrite Himu. pose proof (loop_body_spec sensor l) as H. cbv zeta in H.
      destruct H as (_ & _ & _ & _ & Hst & _). congruence.
Qed.

Lemma reachable_stopped_for_cause sys :
  reachable sys -> Forall (stopped_for_cause sys) (goroutines sys).
Proof.
  induction 1 as [|sys sensor _ IH|sys _ IH Himu|sys _ IH|sys k runtime Hr IH].
  - constructor.
  - exact IH.
  - unfold startBackground. cbn [fst goroutines]. apply Forall_app. split.
    + eapply Forall_impl; [exact IH|]. intros l. apply stopped_for_cause_mono.
      intros c. unfold ctx_cancelled. cbn [contexts].
      destruct (contexts sys !! c) as [b|] eqn:Hb; [|discriminate].
      rewrite lookup_app_l by (eapply lookup_lt_Some; eauto). rewrite Hb. auto.
    + constructor; [|constructor]. intros Hst. cbn in Hst. congruence.
  - eapply Forall_impl.
    + unfold Close_cancel, log. cbn [s cancelFunc].
      destruct (cancelFunc (s sys)); exact IH.
    + intros l. apply stopped_for_cause_mono. intros c Hc.
      unfold Close_cancel. cbn [log s cancelFunc].
      destruct (cancelFunc (s sys)) as [c0|]; [|exact Hc].
      rewrite ctx_cancelled_insert.
      change (ctx_cancelled (log (Info "SMURF CLOSING STUMBLER") sys) c)
        with (ctx_cancelled sys c).
      rewrite Hc. reflexivity.
  - assert (forall l, stopped_for_cause sys l ->
                      stopped_for_cause (goroutine_step k runtime sys) l) as Hsame.
    { intros l. apply stopped_for_cause_mono. intros c. unfold ctx_cancelled.
      rewrite (proj1 (goroutine_step_frame k runtime sys)). auto. }
    destruct (goroutines sys !! k) as [l|] eqn:Hk.
    + destruct (bg.status l) eqn:Hst.
      * pose proof (proj1 (Forall_lookup _ _) (reachable_well_formed sys Hr) k l Hk) as Hwf.
        pose proof (background_stopped_for_cause sys runtime l Hwf) as Hnew.
        cbv zeta in Hnew. apply Hsame in Hnew.
        eapply Forall_impl in IH; [|exact Hsame].
        revert IH Hnew.
        rewrite (goroutine_step_running sys k runtime l Hk Hst). cbv zeta.
        cbn [goroutines]. intros IH Hnew. apply Forall_insert; assumption.
      * rewrite goroutine_step_idle; [exact IH | intros l' Hl'; congruence].
      * rewrite goroutine_step_idle; [exact IH | intros l' Hl'; congruence].
    + rewrite goroutine_step_idle; [exact IH | intros l' Hl'; congruence].
Qed.

(** X12. A goroutine stops only for cause.  In every reachable state, a
    goroutine that has left its function either has a cancelled context or
    has made exactly 10000 passes; a failing sensor never ends a run
    early.  In particular a goroutine whose context [Close] does not
    cancel has made all of its 10000 passes by the time [Close] returns. *)
Theorem goroutine_stops_only_for_cause (sys : System) (k : nat) (l : bg.locals) :
  reachable sys ->
  goroutines sys !! k = Some l ->
  (bg.status l <> Running ->
   ctx_cancelled sys (bg.ctx l) = true \/ bg.iterations l = 10000%Z) /\
  (forall fuel sched sys' e l',
     Close fuel sched sys = Some (sys', e) ->
     goroutines sys' !! k = Some l' ->
     ctx_cancelled sys' (bg.ctx l') = false ->
     bg.status l' <> Running /\ bg.iterations l' = 10000%Z).
Proof.
  intros Hreach Hk. split.
  - exact (proj1 (Forall_lookup _ _) (reachable_stopped_for_cause sys Hreach) k l Hk).
  - intros fuel sched sys' e l' HC Hk' Hlive.
    pose proof (reachable_Close _ _ _ _ _ Hreach HC) as Hreach'.
    pose proof (consistent_idle _ (reachable_consistent _ Hreach')
                  (Close_counter _ _ _ _ _ HC)) as Hidle.
    assert (bg.status l' <> Running) as Hst.
    { intros Hrun. unfold runnable in Hidle.
      pose proof (running_from_lookup 0 _ k l' Hk' (proj2 (is_running_status l') Hrun)) as Hin.
      rewrite Hidle in Hin. destruct Hin. }
    split; [exact Hst|].
    destruct (proj1 (Forall_lookup _ _) (reachable_stopped_for_cause sys' Hreach') k l' Hk' Hst)
      as [Hc|Hit]; [congruence | exact Hit].
Qed.

Lemma goroutine_stops_only_for_cause_witness :
  ctx_cancelled (goroutine_step 0 0 (Close_cancel (fst (newStumbler (deps_of steady) conf0))))
    (bg.ctx (bg.set_status Returned (bg.start 0 (Some steady)))) = true \/
  bg.iterations (bg.set_status Returned (bg.start 0 (Some steady))) = 10000%Z.
Proof.
  refine (proj1 (goroutine_stops_only_for_cause
                  (goroutine_step 0 0 (Close_cancel (fst (newStumbler (deps_of steady) conf0))))
                  0 (bg.set_status Returned (bg.start 0 (Some steady)))
                  (reach_goroutine _ 0 0%Z
                     (reach_Close_cancel _
                        (reachable_Reconfigure (deps_of steady) conf0 fresh reach_fresh)))
                  eq_refl) _).
  discriminate.
Defined.

End Stopping.
